(** * qmd embeddings client: a shallow embedding of [src/embeddings.ts]

    The module resolves a credential and an endpoint from the process
    environment, turns texts into vectors through a remote capability in
    batches of 100, looks the model's dimension up in a static table and
    computes the cosine similarity of two vectors.

    Conventions of the embedding:
    - [process.env] is a finite map from names to strings; reading a
      variable that is not set gives [None] (JavaScript's [undefined]);
    - a JavaScript [number] that holds a measured quantity is a binary64
      float ([PrimFloat.float]); positional indices and table entries,
      which are integers in the source, are [Z];
    - a function that may throw returns a [Completion]; the errors the
      JavaScript engine itself raises while [embed] handles a reply (a
      [TypeError] on a reply without a [data] array, a [RangeError] when a
      call is given more arguments than the engine accepts) are part of
      the model;
    - [embed] talks to the outside world: it lives in a monad that threads
      the state of the world, records every effect in a trace and
      propagates thrown values. *)

From Stdlib Require Import ZArith List Floats.
From stdpp Require Import gmap strings list pretty sorting.
From Equations Require Import Equations.

Open Scope string_scope.
Open Scope list_scope.

(** ** JavaScript preliminaries *)

(** A normal or abrupt completion of a call. *)
Inductive Completion (E A : Type) : Type :=
| Return (a : A)
| Throw (e : E).
Arguments Return {E A} a.
Arguments Throw {E A} e.

(** [new Error(message)]. *)
Record Error := mkError { message : string }.

(** Truthiness of a value of type [string | undefined]: [undefined] and the
    empty string are falsy. *)
Definition truthy (v : option string) : bool :=
  match v with
  | Some s => negb (String.eqb s "")
  | None => false
  end.

(** [a || b] on two values of type [string | undefined]. *)
Definition or_else (a b : option string) : option string :=
  if truthy a then a else b.

(** [a || d] where [d] is a string literal: the result is a string. *)
Definition or_default (a : option string) (d : string) : string :=
  match a with
  | Some s => if String.eqb s "" then d else s
  | None => d
  end.

(** [arr.slice(start, end)] for [0 <= start <= end]: the elements at
    positions [start .. end-1] that exist. *)
Definition slice {A} (arr : list A) (start end_ : nat) : list A :=
  take (end_ - start) (drop start arr).

(** [arr.sort(compare)]: the sort is stable; an element goes before the
    first one it does not compare greater than. *)
Fixpoint sort_insert {A} (compare : A -> A -> Z) (x : A) (sorted : list A) : list A :=
  match sorted with
  | [] => [x]
  | y :: ys =>
      if (compare x y <=? 0)%Z then x :: y :: ys
      else y :: sort_insert compare x ys
  end.

Fixpoint sort {A} (compare : A -> A -> Z) (arr : list A) : list A :=
  match arr with
  | [] => []
  | x :: xs => sort_insert compare x (sort compare xs)
  end.

(** ** Configuration (module top level, lines 3-34) *)

(** The options object handed to [new OpenAI({...})]. The spread of
    [OPENROUTER_API_KEY && !OPENAI_API_KEY && {defaultHeaders}] adds the
    [defaultHeaders] property only when the condition is truthy. *)
Record OpenAI := mkOpenAI {
  apiKey : string;
  baseURL : string;
  defaultHeaders : option (list (string * string));
}.

Module Config.
Section Resolve.
(** [process.env] when the module is loaded. *)
Variable env : gmap string string.

Definition OPENROUTER_API_KEY : option string := env !! "OPENROUTER_API_KEY".
Definition OPENAI_API_KEY : option string := env !! "OPENAI_API_KEY".
Definition OPENAI_BASE_URL : string :=
  or_default (env !! "OPENAI_BASE_URL") "https://api.openai.com/v1".
Definition EMBEDDING_MODEL : string :=
  or_default (env !! "QMD_EMBEDDING_MODEL") "openai/text-embedding-3-small".

Definition API_KEY : option string := or_else OPENAI_API_KEY OPENROUTER_API_KEY.

Definition BASE_URL : string :=
  if truthy OPENAI_API_KEY then OPENAI_BASE_URL
  else "https://openrouter.ai/api/v1".

(** What the load-time check writes with [console.error]. *)
Definition startup_warnings : list string :=
  if truthy API_KEY then []
  else ["Warning: No API key set (either OPENAI_API_KEY or OPENROUTER_API_KEY). Embeddings will not be generated."].

Definition openrouter_headers : list (string * string) :=
  [("HTTP-Referer", "https://github.com/qmd"); ("X-Title", "QMD Knowledge Base")].

Definition client : option OpenAI :=
  match API_KEY with
  | Some key =>
      if String.eqb key "" then None
      else Some {| apiKey := key;
                   baseURL := BASE_URL;
                   defaultHeaders :=
                     if truthy OPENROUTER_API_KEY && negb (truthy OPENAI_API_KEY)
                     then Some openrouter_headers else None |}
  | None => None
  end.

Definition isEmbeddingsEnabled : bool :=
  match client with Some _ => true | None => false end.

Definition getModelName : string := EMBEDDING_MODEL.
End Resolve.
End Config.

(** ** The dimension table (lines 36-46) *)

(** What a property read on [MODEL_DIMENSIONS] can evaluate to: nothing, a
    number of the table, or a member inherited from [Object.prototype]
    (a function or an object, always truthy). *)
Inductive JsValue :=
| JsUndefined
| JsNumber (n : Z)
| JsInherited (member : string).

(** The own properties of the object literal. *)
Definition MODEL_DIMENSIONS : gmap string Z :=
  list_to_map
    [("openai/text-embedding-3-small", 1536%Z);
     ("openai/text-embedding-3-large", 3072%Z);
     ("cohere/embed-english-v3.0", 1024%Z);
     ("cohere/embed-multilingual-v3.0", 1024%Z)].

(** The property names of [Object.prototype], the prototype of every object
    literal (ECMA-262 20.1.3 and B.2.2). *)
Definition Object_prototype : list string :=
  ["constructor"; "hasOwnProperty"; "isPrototypeOf"; "propertyIsEnumerable";
   "toLocaleString"; "toString"; "valueOf"; "__proto__";
   "__defineGetter__"; "__defineSetter__"; "__lookupGetter__"; "__lookupSetter__"].

(** [obj[key]] on an object literal: an own property first, then the
    prototype chain. *)
Definition get (own : gmap string Z) (key : string) : JsValue :=
  match own !! key with
  | Some n => JsNumber n
  | None => if bool_decide (key ∈ Object_prototype) then JsInherited key else JsUndefined
  end.

(** [v || d] with a numeric literal [d]. *)
Definition or_number (v : JsValue) (d : Z) : JsValue :=
  match v with
  | JsUndefined => JsNumber d
  | JsNumber n => if (n =? 0)%Z then JsNumber d else JsNumber n
  | JsInherited m => JsInherited m
  end.

Definition getEmbeddingDimensions (env : gmap string string) : JsValue :=
  or_number (get MODEL_DIMENSIONS (Config.EMBEDDING_MODEL env)) 1536.

(** ** The embedding client (lines 52-99) *)

(** [number[]]. *)
Definition Vector : Type := list float.

(** One element of [response.data]. *)
Record Embedding := mkEmbedding { index : Z; embedding : Vector }.

(** The argument of [client.embeddings.create]. *)
Record EmbeddingCreateParams := mkParams { model : string; input : list string }.

Definition BATCH_SIZE : nat := 100.

(** The errors the engine raises in [embed]. *)
Inductive EngineError := TypeError | RangeError.

Section Client.
(** The state of the outside world (the network and the provider) and the
    values the remote capability rejects with. *)
Context {World Cause : Type}.

(** A value thrown inside [embed]: an [Error] the module creates itself,
    the very value the remote capability rejected with, or an error the
    engine raises while the reply is handled. *)
Inductive Thrown :=
| Own (e : Error)
| Foreign (cause : Cause)
| Engine (e : EngineError).

(** The observable effects of a call, in the order they happen. A call is
    rejected with a cause ([inl]) or resolved with a response ([inr]),
    whose [data] is an array of pairs ([Some]) or is not there ([None]). *)
Inductive Event :=
| Create (c : OpenAI) (params : EmbeddingCreateParams)
    (reply : Cause + option (list Embedding))
| ConsoleError (msg : string) (error : Thrown).

Record Run (A : Type) := mkRun {
  world : World;
  trace : list Event;
  outcome : Completion Thrown A;
}.
Arguments mkRun {A}.
Arguments world {A}.
Arguments trace {A}.
Arguments outcome {A}.

Definition M (A : Type) : Type := World -> Run A.

Definition ret {A} (a : A) : M A :=
  fun w => mkRun w [] (Return a).

Definition throw {A} (e : Thrown) : M A :=
  fun w => mkRun w [] (Throw e).

Definition bind {A B} (m : M A) (k : A -> M B) : M B :=
  fun w =>
    let r := m w in
    match outcome r with
    | Return a =>
        let r' := k a (world r) in
        mkRun (world r') (trace r ++ trace r') (outcome r')
    | Throw e => mkRun (world r) (trace r) (Throw e)
    end.

(** [try { body } catch (error) { handler }]. *)
Definition try_catch {A} (body : M A) (handler : Thrown -> M A) : M A :=
  fun w =>
    let r := body w in
    match outcome r with
    | Return a => r
    | Throw e =>
        let r' := handler e (world r) in
        mkRun (world r') (trace r ++ trace r') (outcome r')
    end.

Definition console_error (msg : string) (error : Thrown) : M unit :=
  fun w => mkRun w [ConsoleError msg error] (Return tt).

(** The engine accepts a call with up to [BATCH_SIZE + headroom]
    arguments. The limit depends on the engine and is far above 100 in all
    of them; how far is left open. *)
Variable headroom : nat.

Definition argument_limit : nat := BATCH_SIZE + headroom.

(** The remote capability behind [client.embeddings.create]: given the
    client's options and the request it rejects, or resolves with a
    response, and may change the world. Of the response only [data] is
    read: [Some] array of pairs, or [None] for a response that has no array
    of pairs there ([data] is missing or no array, or an element of it is
    [null]). *)
Variable remote :
  OpenAI -> EmbeddingCreateParams -> World -> World * (Cause + option (list Embedding)).

(** [await client.embeddings.create(params)]: the [data] of the response. *)
Definition embeddings_create (c : OpenAI) (params : EmbeddingCreateParams)
    : M (option (list Embedding)) :=
  fun w =>
    let '(w', reply) := remote c params w in
    mkRun w' [Create c params reply]
      match reply with
      | inl cause => Throw (Foreign cause)
      | inr data => Return data
      end.

(** [response.data.sort(compare)]: a method call on [data]. Without an
    array of pairs there, the call, or reading a pair on this line or the
    next, throws a [TypeError]. *)
Definition data_sort (data : option (list Embedding)) (compare : Embedding -> Embedding -> Z)
    : M (list Embedding) :=
  match data with
  | Some items => ret (sort compare items)
  | None => throw (Engine TypeError)
  end.

(** [results.push(...vectors)]: every vector is an argument of the call,
    which throws a [RangeError] when they are more than the engine accepts. *)
Definition push_spread (results vectors : list Vector) : M (list Vector) :=
  if (length vectors <=? argument_limit)%nat then ret (results ++ vectors)%list
  else throw (Engine RangeError).

Notation "'let*' x ':=' m 'in' k" := (bind m (fun x => k))
  (at level 10, x name, m at level 100, k at level 200).

(** The body of the [for] loop for one value of [i]: it returns the
    [results] array after the [push]. *)
Definition embed_batch (c : OpenAI) (model : string) (texts : list string)
    (i : nat) (results : list Vector) : M (list Vector) :=
  let batch := slice texts i (i + BATCH_SIZE) in
  try_catch
    (let* data := embeddings_create c {| model := model; input := batch |} in
     let* sorted := data_sort data (fun a b => index a - index b)%Z in
     push_spread results (map embedding sorted))
    (fun error =>
       let* _ := console_error ("Error generating embeddings for batch " +:+ pretty i +:+ ":") error in
       throw error).

(** [for (let i = 0; i < texts.length; i += BATCH_SIZE) { ... }] from a
    given [i] on, then [return results]. *)
Equations? embed_loop (c : OpenAI) (model : string) (texts : list string)
    (i : nat) (results : list Vector) : M (list Vector)
    by wf (length texts - i) lt :=
embed_loop c model texts i results with lt_dec i (length texts) := {
  | left _ =>
      let* results' := embed_batch c model texts i results in
      embed_loop c model texts (i + BATCH_SIZE) results'
  | right _ => ret results }.
Proof. unfold BATCH_SIZE. lia. Qed.

(** [n] consecutive iterations of the loop body starting at [i], then
    [return results]: the loop, once the number of its iterations is known. *)
Fixpoint iterations (c : OpenAI) (model : string) (texts : list string)
    (n i : nat) (results : list Vector) : M (list Vector) :=
  match n with
  | 0 => ret results
  | S n' =>
      let* results' := embed_batch c model texts i results in
      iterations c model texts n' (i + BATCH_SIZE) results'
  end.

Variable env : gmap string string.

Definition embed (texts : list string) : M (list Vector) :=
  match Config.client env with
  | None => throw (Own (mkError "OPENROUTER_API_KEY not configured"))
  | Some c =>
      if (length texts =? 0)%nat then ret []
      else embed_loop c (Config.EMBEDDING_MODEL env) texts 0 []
  end.

(** [const [embedding] = await embed([text]); return embedding;]
    destructuring an empty array gives [undefined]. *)
Definition embedSingle (text : string) : M (option Vector) :=
  let* vectors := embed [text] in
  ret (head vectors).

(** The provider invocations of a run, in order. *)
Definition invocation_of (ev : Event)
    : option (EmbeddingCreateParams * (Cause + option (list Embedding))) :=
  match ev with
  | Create _ params reply => Some (params, reply)
  | ConsoleError _ _ => None
  end.

Definition invocations {A} (r : Run A)
    : list (EmbeddingCreateParams * (Cause + option (list Embedding))) :=
  omap invocation_of (trace r).

(** What the run wrote with [console.error]. *)
Definition logged_by (ev : Event) : option (string * Thrown) :=
  match ev with
  | ConsoleError msg error => Some (msg, error)
  | Create _ _ _ => None
  end.

Definition console {A} (r : Run A) : list (string * Thrown) :=
  omap logged_by (trace r).
End Client.

Arguments Thrown Cause : clear implicits.
Arguments Engine {Cause} e.
Arguments Event Cause : clear implicits.
Arguments Run World Cause A : clear implicits.
Arguments M World Cause A : clear implicits.
Arguments mkRun {World Cause A} world trace outcome.
Arguments world {World Cause A} r.
Arguments trace {World Cause A} r.
Arguments outcome {World Cause A} r.

(** ** The similarity utility (lines 101-125) *)

(** [a[i]] read as an operand of arithmetic: past the end the read gives
    [undefined], which arithmetic turns into [NaN]. *)
Definition at_index (a : Vector) (i : nat) : float := nth i a nan.

(** The three variables the loop updates. *)
Record Sums := mkSums { dot : float; normA : float; normB : float }.

(** The loop body for one [i]. *)
Definition accumulate (a b : Vector) (s : Sums) (i : nat) : Sums :=
  {| dot := dot s + at_index a i * at_index b i;
     normA := normA s + at_index a i * at_index a i;
     normB := normB s + at_index b i * at_index b i |}%float.

(** [for (let i = 0; i < a.length; i++) { ... }] from all three at [0]. *)
Definition sums (a b : Vector) : Sums :=
  foldl (accumulate a b) (mkSums 0 0 0) (seq 0 (length a)).

Definition dimension_mismatch (la lb : nat) : Error :=
  mkError ("Vector dimension mismatch: " +:+ pretty la +:+ " vs " +:+ pretty lb).

Definition cosineSimilarity (a b : Vector) : Completion Error float :=
  if negb (length a =? length b)%nat
  then Throw (dimension_mismatch (length a) (length b))
  else
    let s := sums a b in
    let denominator := (sqrt (normA s) * sqrt (normB s))%float in
    if (denominator =? 0)%float then Return 0%float
    else Return (dot s / denominator)%float.

(** ** Reference definitions

    The quantities the specification speaks of, written without the loops of
    the source; the theorems below relate the source to them. *)

(** The dot product of two vectors, summed from the left starting at [0]. *)
Definition dot_product (a b : Vector) : float :=
  foldl (fun acc xy => acc + fst xy * snd xy)%float 0%float (zip a b).

(** The sum of the squares of a vector's entries, from the left from [0]. *)
Definition sum_of_squares (a : Vector) : float :=
  foldl (fun acc x => acc + x * x)%float 0%float a.

(** The quotient of the dot product by the product of the two norms, and
    [0] when that product is zero. *)
Definition cosine_reference (a b : Vector) : float :=
  let denominator := (sqrt (sum_of_squares a) * sqrt (sum_of_squares b))%float in
  if (denominator =? 0)%float then 0%float else (dot_product a b / denominator)%float.

(** [ceil(n / 100)]. *)
Definition batch_count (n : nat) : nat := (n + 99) / 100.

(** The consecutive batches of at most 100 texts. *)
Definition batches (texts : list string) : list (list string) :=
  (fun k => slice texts (k * 100) (k * 100 + 100)) <$> seq 0 (batch_count (length texts)).

(** The comparator [embed] sorts a response with. *)
Definition by_index (a b : Embedding) : Z := (index a - index b)%Z.

(** Ascending order of index. *)
Definition index_le (a b : Embedding) : Prop := (index a <= index b)%Z.

(** The reply of a call that the provider answered with [data]. *)
Definition answer_with {Cause} (data : list Embedding) : Cause + option (list Embedding) :=
  inr (Some data).

(** The event of a call that the provider answered. *)
Definition answered_call {Cause} (c : OpenAI) (req : EmbeddingCreateParams)
    (data : list Embedding) : Event Cause :=
  Create c req (inr (Some data)).

(** The vectors [embed] appends for one response. *)
Definition block (data : list Embedding) : list Vector :=
  embedding <$> sort by_index data.

(** The request for the batch number [k]. *)
Definition request (model : string) (texts : list string) (k : nat) : EmbeddingCreateParams :=
  mkParams model (slice texts (k * 100) (k * 100 + 100)).

(** The message logged for the batch that starts at [offset]. *)
Definition batch_error_message (offset : nat) : string :=
  "Error generating embeddings for batch " +:+ pretty offset +:+ ":".

(** The [data] of the replies that succeeded. *)
Definition answered {Cause}
    (calls : list (EmbeddingCreateParams * (Cause + option (list Embedding))))
    : list (list Embedding) :=
  omap (fun call => match snd call with inr data => data | inl _ => None end) calls.

(** The pairs of a reply ([[]] when it has none). *)
Definition data_of {Cause} (reply : Cause + option (list Embedding)) : list Embedding :=
  match reply with
  | inr (Some data) => data
  | _ => []
  end.

(** What handling a reply throws inside the [try] block, if anything: the
    cause of a rejection, a [TypeError] for a response without [data], a
    [RangeError] for more pairs than a call takes arguments. *)
Definition thrown_by {Cause} (limit : nat) (reply : Cause + option (list Embedding))
    : option (Thrown Cause) :=
  match reply with
  | inl cause => Some (Foreign cause)
  | inr None => Some (Engine TypeError)
  | inr (Some data) =>
      if (length data <=? limit)%nat then None else Some (Engine RangeError)
  end.

(** A credential counts as present when its variable is set to a string
    that is not empty: that is what the source's [||] and [?:] test. *)
Definition present (v : option string) : Prop := truthy v = true.

(** ** Concrete instances used to run the model *)

Module Demo.
(** A provider without state that rejects, with the cause ["rate limit"],
    every batch holding the text ["bad"], and otherwise answers with one
    pair per input in reverse order; the vector of the text at position
    [j] is [[j]]. *)
Definition answer (inputs : list string) : list Embedding :=
  reverse (imap (fun j _ => mkEmbedding (Z.of_nat j) [PrimFloat.of_uint63 (Uint63.of_Z (Z.of_nat j))]) inputs).

Definition remote (c : OpenAI) (p : EmbeddingCreateParams) (w : unit)
    : unit * (string + option (list Embedding)) :=
  (w, if bool_decide ("bad" ∈ input p) then inl "rate limit"
      else inr (Some (answer (input p)))).

(** An engine that accepts calls with up to 120 arguments. *)
Definition headroom : nat := 20.

Definition env_openai : gmap string string := {[ "OPENAI_API_KEY" := "sk-1" ]}.
Definition env_openrouter : gmap string string := {[ "OPENROUTER_API_KEY" := "or-1" ]}.
Definition env_both : gmap string string :=
  <[ "OPENAI_BASE_URL" := "http://localhost:8080/v1" ]>
    (<[ "OPENAI_API_KEY" := "sk-1" ]> env_openrouter).
Definition env_none : gmap string string := ∅.

(** 100 texts, then one more. *)
Definition texts_101 (last : string) : list string := replicate 100 "ok" ++ [last].

(** A provider that answers every request with an empty [data]. *)
Definition remote_silent (c : OpenAI) (p : EmbeddingCreateParams) (w : unit)
    : unit * (string + option (list Embedding)) :=
  (w, inr (Some [])).

(** A provider that resolves every request with a response without [data]. *)
Definition remote_no_data (c : OpenAI) (p : EmbeddingCreateParams) (w : unit)
    : unit * (string + option (list Embedding)) :=
  (w, inr None).

(** A provider that answers every request with 121 pairs. *)
Definition remote_flood (c : OpenAI) (p : EmbeddingCreateParams) (w : unit)
    : unit * (string + option (list Embedding)) :=
  (w, inr (Some (answer (replicate 121 "x")))).
End Demo.

(** * Theorems *)

(** ** Configuration *)

Lemma truthy_Some (v : option string) :
  truthy v = true <-> exists s, v = Some s /\ s <> "".
Proof.
  destruct v as [s|]; simpl.
  - destruct (String.eqb_spec s ""); simpl; split.
    + discriminate.
    + intros (s' & [= <-] & Hs). contradiction.
    + eauto.
    + reflexivity.
  - split; [discriminate | intros (s & [=] & _)].
Qed.

Lemma or_default_present (v : option string) (d : string) :
  (forall s, v = Some s -> s <> "" -> or_default v d = s) /\
  (truthy v = false -> or_default v d = d).
Proof.
  split.
  - intros s -> Hs. simpl. destruct (String.eqb_spec s ""); [contradiction | reflexivity].
  - destruct v as [s|]; simpl; [|reflexivity].
    destruct (String.eqb s ""); [reflexivity | discriminate].
Qed.


Lemma disabled_client (env : gmap string string) :
  Config.isEmbeddingsEnabled env = false <-> Config.client env = None.
Proof.
  unfold Config.isEmbeddingsEnabled. destruct (Config.client env); split; congruence.
Qed.

(** C9. For every environment: [isEmbeddingsEnabled] is true iff one of the
    two credentials is present (set to a non-empty string). When both are
    present the client holds the primary one ([OPENAI_API_KEY]) with the
    endpoint of [OPENAI_BASE_URL], or the canonical
    [https://api.openai.com/v1] when no override is present, and no extra
    headers. When only the secondary one ([OPENROUTER_API_KEY]) is present
    the client holds it with the fixed endpoint
    [https://openrouter.ai/api/v1] and the two OpenRouter headers. *)
Theorem config_resolution (env : gmap string string) :
  (Config.isEmbeddingsEnabled env = true <->
     present (Config.OPENAI_API_KEY env) \/ present (Config.OPENROUTER_API_KEY env)) /\
  (present (Config.OPENAI_API_KEY env) -> present (Config.OPENROUTER_API_KEY env) ->
     exists key endpoint,
       env !! "OPENAI_API_KEY" = Some key /\
       Config.client env = Some (mkOpenAI key endpoint None) /\
       (forall url, env !! "OPENAI_BASE_URL" = Some url -> url <> "" -> endpoint = url) /\
       (~ present (env !! "OPENAI_BASE_URL") -> endpoint = "https://api.openai.com/v1")) /\
  (~ present (Config.OPENAI_API_KEY env) -> present (Config.OPENROUTER_API_KEY env) ->
     exists key,
       env !! "OPENROUTER_API_KEY" = Some key /\
       Config.client env =
         Some (mkOpenAI key "https://openrouter.ai/api/v1"
                 (Some [("HTTP-Referer", "https://github.com/qmd");
                        ("X-Title", "QMD Knowledge Base")]))).
Proof.
  unfold present, Config.isEmbeddingsEnabled, Config.client, Config.API_KEY,
    Config.BASE_URL, Config.OPENAI_BASE_URL, or_else,
    Config.OPENAI_API_KEY, Config.OPENROUTER_API_KEY.
  split; [|split].
  - destruct (env !! "OPENAI_API_KEY") as [k1|]; simpl.
    + destruct (String.eqb_spec k1 ""); simpl.
      * destruct (env !! "OPENROUTER_API_KEY") as [k2|]; simpl;
          [destruct (String.eqb k2 ""); simpl|]; intuition congruence.
      * destruct (String.eqb_spec k1 ""); [contradiction|]. tauto.
    + destruct (env !! "OPENROUTER_API_KEY") as [k2|]; simpl;
        [destruct (String.eqb k2 ""); simpl|]; intuition congruence.
  - intros H1 H2. apply truthy_Some in H1 as (k1 & E1 & Hk1).
    rewrite E1. simpl. destruct (String.eqb_spec k1 ""); [contradiction|]. simpl.
    destruct (String.eqb_spec k1 ""); [contradiction|].
    rewrite andb_false_r.
    exists k1, (or_default (env !! "OPENAI_BASE_URL") "https://api.openai.com/v1").
    split; [reflexivity|]. split; [reflexivity|]. split.
    + intros url Hurl. apply or_default_present. exact Hurl.
    + intros Hno. apply or_default_present.
      destruct (truthy (env !! "OPENAI_BASE_URL")); [contradiction Hno|]; reflexivity.
  - intros H1 H2. apply truthy_Some in H2 as (k2 & E2 & Hk2).
    apply not_true_is_false in H1. rewrite H1, E2.
    destruct (String.eqb_spec k2 ""); [contradiction|].
    exists k2. split; [reflexivity|].
    simpl. destruct (String.eqb_spec k2 ""); [contradiction|]. reflexivity.
Qed.

(** The resolution at four environments: both credentials with an endpoint
    override, the primary alone, the secondary alone, none. *)
Lemma config_resolution_witness :
  Config.client Demo.env_both = Some (mkOpenAI "sk-1" "http://localhost:8080/v1" None) /\
  Config.client Demo.env_openrouter =
    Some (mkOpenAI "or-1" "https://openrouter.ai/api/v1"
            (Some [("HTTP-Referer", "https://github.com/qmd");
                   ("X-Title", "QMD Knowledge Base")])) /\
  Config.client Demo.env_openai = Some (mkOpenAI "sk-1" "https://api.openai.com/v1" None) /\
  Config.isEmbeddingsEnabled Demo.env_none = false.
Proof.
  split; [|split; [|split; reflexivity]].
  - assert (H1 : present (Config.OPENAI_API_KEY Demo.env_both)) by reflexivity.
    assert (H2 : present (Config.OPENROUTER_API_KEY Demo.env_both)) by reflexivity.
    destruct (proj1 (proj2 (config_resolution Demo.env_both)) H1 H2)
      as (key & endpoint & Hkey & Hclient & Hurl & _).
    assert (key = "sk-1") as -> by (vm_compute in Hkey; congruence).
    rewrite (Hurl "http://localhost:8080/v1") in Hclient; [exact Hclient|reflexivity|discriminate].
  - assert (H1 : ~ present (Config.OPENAI_API_KEY Demo.env_openrouter))
      by (vm_compute; discriminate).
    assert (H2 : present (Config.OPENROUTER_API_KEY Demo.env_openrouter)) by reflexivity.
    destruct (proj2 (proj2 (config_resolution Demo.env_openrouter)) H1 H2)
      as (key & Hkey & Hclient).
    assert (key = "or-1") as -> by (vm_compute in Hkey; congruence).
    exact Hclient.
Defined.

(** A credential variable set to the empty string counts as absent: the
    secondary credential is taken although [OPENAI_API_KEY] is set, and with
    nothing else set the client is disabled. *)
Lemma empty_credential_is_absent :
  Config.client (<[ "OPENAI_API_KEY" := "" ]> Demo.env_openrouter) =
    Config.client Demo.env_openrouter /\
  Config.isEmbeddingsEnabled {[ "OPENAI_API_KEY" := "" ]} = false /\
  Config.BASE_URL (<[ "OPENAI_BASE_URL" := "" ]> Demo.env_openai) = "https://api.openai.com/v1".
Proof. vm_compute. auto. Qed.

(** ** The dimension table *)

Lemma MODEL_DIMENSIONS_entries (key : string) (n : Z) :
  MODEL_DIMENSIONS !! key = Some n ->
  (key, n) ∈ [("openai/text-embedding-3-small", 1536%Z);
              ("openai/text-embedding-3-large", 3072%Z);
              ("cohere/embed-english-v3.0", 1024%Z);
              ("cohere/embed-multilingual-v3.0", 1024%Z)].
Proof. apply elem_of_list_to_map_2. Qed.

Lemma MODEL_DIMENSIONS_nonzero (key : string) (n : Z) :
  MODEL_DIMENSIONS !! key = Some n -> n <> 0%Z.
Proof.
  intros H%MODEL_DIMENSIONS_entries.
  repeat (apply elem_of_cons in H as [[= _ ->] | H]; [lia|]).
  by apply elem_of_nil in H.
Qed.

(** For a model identifier that is no property name of [Object.prototype],
    [getEmbeddingDimensions] is the lookup in the table with default 1536:
    1536 for the default small model, 3072 for the large one, the table's
    value for the two other entries, and 1536 for an identifier that is not a
    key of the table. *)
Lemma getEmbeddingDimensions_lookup (env : gmap string string) :
  Config.EMBEDDING_MODEL env ∉ Object_prototype ->
  getEmbeddingDimensions env =
    JsNumber (default 1536%Z (MODEL_DIMENSIONS !! Config.EMBEDDING_MODEL env)).
Proof.
  intros Hproto. unfold getEmbeddingDimensions, get.
  destruct (MODEL_DIMENSIONS !! Config.EMBEDDING_MODEL env) as [n|] eqn:E; simpl.
  - apply MODEL_DIMENSIONS_nonzero in E. destruct (Z.eqb_spec n 0); [contradiction | reflexivity].
  - rewrite bool_decide_eq_false_2 by exact Hproto. reflexivity.
Qed.

Lemma getEmbeddingDimensions_known :
  getEmbeddingDimensions ∅ = JsNumber 1536 /\
  getEmbeddingDimensions {[ "QMD_EMBEDDING_MODEL" := "openai/text-embedding-3-small" ]} = JsNumber 1536 /\
  getEmbeddingDimensions {[ "QMD_EMBEDDING_MODEL" := "openai/text-embedding-3-large" ]} = JsNumber 3072 /\
  getEmbeddingDimensions {[ "QMD_EMBEDDING_MODEL" := "cohere/embed-english-v3.0" ]} = JsNumber 1024 /\
  getEmbeddingDimensions {[ "QMD_EMBEDDING_MODEL" := "cohere/embed-multilingual-v3.0" ]} = JsNumber 1024 /\
  getEmbeddingDimensions {[ "QMD_EMBEDDING_MODEL" := "my/own-model" ]} = JsNumber 1536.
Proof. vm_compute. auto 10. Qed.

(** C8. The model identifier ["constructor"] is not a key of the dimension
    table, and [getEmbeddingDimensions] does not return the default 1536 for
    it: the read [MODEL_DIMENSIONS[EMBEDDING_MODEL]] finds the member that
    every object literal inherits from [Object.prototype], which is truthy,
    so the [|| 1536] is not taken and the function returns that member. *)
Theorem getEmbeddingDimensions_inherited_member :
  let env : gmap string string := {[ "QMD_EMBEDDING_MODEL" := "constructor" ]} in
  Config.EMBEDDING_MODEL env = "constructor" /\
  MODEL_DIMENSIONS !! "constructor" = None /\
  getEmbeddingDimensions env = JsInherited "constructor" /\
  getEmbeddingDimensions env <> JsNumber 1536.
Proof. vm_compute. repeat split; congruence. Qed.

(** ** The embedding client: the two early exits *)

Section EarlyExits.
Context {World Cause : Type}.
Variable headroom : nat.
Variable remote :
  OpenAI -> EmbeddingCreateParams -> World -> World * (Cause + option (list Embedding)).
Variable env : gmap string string.

(** C3. When the system is disabled (no credential was resolved, so there
    is no client), [embed] on every input, the empty one included, throws
    the error "OPENROUTER_API_KEY not configured" at once: the world is
    untouched and the trace is empty, so no provider invocation and no
    other effect precedes the failure. *)
Theorem embed_not_configured (texts : list string) (w : World) :
  Config.isEmbeddingsEnabled env = false ->
  embed headroom remote env texts w =
    mkRun w [] (Throw (Own (mkError "OPENROUTER_API_KEY not configured"))) /\
  invocations (embed headroom remote env texts w) = [].
Proof.
  intros Hoff%disabled_client. unfold embed. rewrite Hoff. split; reflexivity.
Qed.

(** C4 (amended). When the system is enabled, [embed []] returns the empty
    sequence and leaves the world untouched; whether it is enabled or not,
    [embed []] performs no provider invocation. *)
Theorem embed_empty (w : World) :
  (Config.isEmbeddingsEnabled env = true ->
     embed headroom remote env [] w = mkRun w [] (Return [])) /\
  invocations (embed headroom remote env [] w) = [].
Proof.
  unfold embed, Config.isEmbeddingsEnabled.
  destruct (Config.client env) as [c|]; simpl; split; try reflexivity.
  discriminate.
Qed.
End EarlyExits.

Lemma embed_not_configured_witness :
  Config.isEmbeddingsEnabled Demo.env_none = false /\
  outcome (embed Demo.headroom Demo.remote Demo.env_none ["x"] tt) =
    Throw (Own (mkError "OPENROUTER_API_KEY not configured")) /\
  invocations (embed Demo.headroom Demo.remote Demo.env_none ["x"] tt) = [].
Proof.
  assert (Hoff : Config.isEmbeddingsEnabled Demo.env_none = false) by reflexivity.
  destruct (embed_not_configured Demo.headroom Demo.remote Demo.env_none ["x"] tt Hoff) as [Hrun Hinv].
  split; [exact Hoff|]. split; [|exact Hinv].
  rewrite Hrun. reflexivity.
Defined.

Lemma embed_empty_witness :
  Config.isEmbeddingsEnabled Demo.env_openai = true /\
  embed Demo.headroom Demo.remote Demo.env_openai [] tt = mkRun tt [] (Return []).
Proof.
  split; [reflexivity|].
  apply (proj1 (embed_empty Demo.headroom Demo.remote Demo.env_openai tt)). reflexivity.
Defined.

(** C4 as stated fails: without a credential [embed []] does not return the
    empty sequence, it throws. *)
Lemma embed_empty_disabled_throws :
  outcome (embed Demo.headroom Demo.remote Demo.env_none [] tt) =
    Throw (Own (mkError "OPENROUTER_API_KEY not configured")) /\
  outcome (embed Demo.headroom Demo.remote Demo.env_none [] tt) <> Return [].
Proof. split; [reflexivity | discriminate]. Qed.

(** ** The similarity utility *)

Section Similarity.
Implicit Types a b : Vector.

(** Binary64 multiplication commutes. *)
Lemma float_mul_comm (x y : float) : (x * y)%float = (y * x)%float.
Proof.
  apply Prim2SF_inj. rewrite !mul_spec. unfold SF64mul, SFmul.
  destruct (Prim2SF x) as [sx|sx| |sx mx ex], (Prim2SF y) as [sy|sy| |sy my ey];
    try reflexivity; rewrite (xorb_comm sx sy); try reflexivity.
  rewrite (Pos.mul_comm mx my), (Z.add_comm ex ey). reflexivity.
Qed.

(** The loop from index [length pa] on, with the sums so far in [s]. *)
Lemma foldl_accumulate (pa pb a b : Vector) (s : Sums) :
  length pa = length pb -> length a = length b ->
  foldl (accumulate (pa ++ a) (pb ++ b)) s (seq (length pa) (length a)) =
    mkSums (foldl (fun acc xy => acc + fst xy * snd xy)%float (dot s) (zip a b))
           (foldl (fun acc x => acc + x * x)%float (normA s) a)
           (foldl (fun acc x => acc + x * x)%float (normB s) b).
Proof.
  revert pa pb b s.
  induction a as [|x a IH]; intros pa pb [|y b] s Hp Hab; try discriminate.
  - destruct s; reflexivity.
  - simpl in Hab. injection Hab as Hab. cbn [length seq foldl zip zip_with].
    assert (Hx : at_index (pa ++ x :: a) (length pa) = x) by apply nth_middle.
    assert (Hy : at_index (pb ++ y :: b) (length pa) = y)
      by (rewrite Hp; apply nth_middle).
    unfold accumulate at 2. rewrite Hx, Hy.
    rewrite (cons_middle x pa a), (cons_middle y pb b), !app_assoc.
    replace (S (length pa)) with (length (pa ++ [x]))
      by (rewrite length_app; simpl; lia).
    rewrite IH; [reflexivity | | exact Hab].
    rewrite !length_app. simpl. lia.
Qed.

(** The single pass computes the three sums of the specification. *)
Lemma sums_reference a b :
  length a = length b ->
  sums a b = mkSums (dot_product a b) (sum_of_squares a) (sum_of_squares b).
Proof.
  intros Hab. unfold sums.
  exact (foldl_accumulate [] [] a b (mkSums 0 0 0) eq_refl Hab).
Qed.

Lemma cosineSimilarity_equal_lengths a b :
  length a = length b -> cosineSimilarity a b = Return (cosine_reference a b).
Proof.
  intros Hab. unfold cosineSimilarity, cosine_reference.
  rewrite (proj2 (Nat.eqb_eq _ _) Hab). simpl.
  rewrite (sums_reference a b Hab). simpl.
  destruct (_ =? 0)%float; reflexivity.
Qed.

Lemma cosineSimilarity_unequal_lengths a b :
  length a <> length b ->
  cosineSimilarity a b = Throw (dimension_mismatch (length a) (length b)).
Proof.
  intros Hab. unfold cosineSimilarity.
  rewrite (proj2 (Nat.eqb_neq _ _) Hab). reflexivity.
Qed.

Lemma dot_product_comm a b : dot_product a b = dot_product b a.
Proof.
  unfold dot_product. generalize 0%float as acc. revert b.
  induction a as [|x a IH]; intros [|y b] acc; try reflexivity.
  simpl. rewrite (float_mul_comm x y). apply IH.
Qed.

(** C6. For vectors of equal length the loop leaves in [dot], [normA] and
    [normB] the dot product and the two sums of squares, each summed from
    the left starting at 0, and [cosineSimilarity] returns the dot product
    divided by the product of the square roots of the two sums of squares,
    or 0 when that product compares equal to zero; in particular
    [cosineSimilarity([0,0],[1,2])] returns 0 and raises nothing. *)
Theorem cosineSimilarity_formula a b :
  length a = length b ->
  sums a b = mkSums (dot_product a b) (sum_of_squares a) (sum_of_squares b) /\
  cosineSimilarity a b =
    Return (if (sqrt (sum_of_squares a) * sqrt (sum_of_squares b) =? 0)%float
            then 0%float
            else (dot_product a b /
                    (sqrt (sum_of_squares a) * sqrt (sum_of_squares b)))%float) /\
  cosineSimilarity [0; 0]%float [1; 2]%float = Return 0%float.
Proof.
  intros Hab. split; [exact (sums_reference a b Hab)|]. split; [|reflexivity].
  exact (cosineSimilarity_equal_lengths a b Hab).
Qed.

(** C7. [cosineSimilarity] throws if and only if the two lengths differ;
    the error it throws then is the one whose message names both lengths,
    "Vector dimension mismatch: <len a> vs <len b>"; on equal lengths it
    returns a number. *)
Theorem cosineSimilarity_throws_iff a b :
  ((exists e, cosineSimilarity a b = Throw e) <-> length a <> length b) /\
  (forall e, cosineSimilarity a b = Throw e ->
     message e = "Vector dimension mismatch: " +:+ pretty (length a)
                   +:+ " vs " +:+ pretty (length b)) /\
  (length a = length b -> exists x, cosineSimilarity a b = Return x) /\
  cosineSimilarity [1; 2]%float [1; 2; 3]%float =
    Throw (mkError "Vector dimension mismatch: 2 vs 3").
Proof.
  destruct (decide (length a = length b)) as [Heq|Hne].
  - pose proof (cosineSimilarity_equal_lengths a b Heq) as Hret.
    rewrite Hret. repeat split; try discriminate; eauto.
    + intros [e [=]].
    + intros Hne. contradiction.
  - pose proof (cosineSimilarity_unequal_lengths a b Hne) as Hthrow.
    rewrite Hthrow. repeat split; eauto.
    + intros e [= <-]. reflexivity.
    + intros Heq. contradiction.
Qed.

(** C10. [cosineSimilarity] is symmetric: on vectors of equal length
    [cosineSimilarity a b] and [cosineSimilarity b a] are the same binary64
    value, and on vectors of unequal length both throw the dimension
    mismatch error (each naming the lengths in the order of its own
    arguments). *)
Theorem cosineSimilarity_symmetric a b :
  (length a = length b -> cosineSimilarity a b = cosineSimilarity b a) /\
  (length a <> length b ->
     cosineSimilarity a b = Throw (dimension_mismatch (length a) (length b)) /\
     cosineSimilarity b a = Throw (dimension_mismatch (length b) (length a))).
Proof.
  split.
  - intros Hab.
    rewrite (cosineSimilarity_equal_lengths a b Hab).
    rewrite (cosineSimilarity_equal_lengths b a (eq_sym Hab)).
    unfold cosine_reference.
    rewrite (dot_product_comm a b).
    rewrite (float_mul_comm (sqrt (sum_of_squares a)) (sqrt (sum_of_squares b))).
    reflexivity.
  - intros Hab. split; apply cosineSimilarity_unequal_lengths; congruence.
Qed.
End Similarity.

Lemma cosineSimilarity_formula_witness :
  cosineSimilarity [1; 0]%float [0; 1]%float = Return 0%float /\
  sums [3; 4]%float [4; 3]%float = mkSums 24 25 25 /\
  cosineSimilarity [3; 4]%float [4; 3]%float = Return (24 / 25)%float.
Proof.
  pose proof (cosineSimilarity_formula [1; 0]%float [0; 1]%float eq_refl) as (_ & H1 & _).
  pose proof (cosineSimilarity_formula [3; 4]%float [4; 3]%float eq_refl) as (H2 & H3 & _).
  split; [exact H1|]. split; [exact H2 | exact H3].
Defined.

Lemma cosineSimilarity_throws_iff_witness :
  length [1; 2]%float <> length [1; 2; 3]%float /\
  exists e, cosineSimilarity [1; 2]%float [1; 2; 3]%float = Throw e.
Proof.
  assert (Hne : length [1; 2]%float <> length [1; 2; 3]%float) by (simpl; lia).
  split; [exact Hne|].
  exact (proj2 (proj1 (cosineSimilarity_throws_iff [1; 2]%float [1; 2; 3]%float)) Hne).
Defined.

Lemma cosineSimilarity_symmetric_witness :
  cosineSimilarity [1; 2; 3]%float [3; 2; 1]%float =
    cosineSimilarity [3; 2; 1]%float [1; 2; 3]%float /\
  cosineSimilarity [1; 2]%float [1; 2; 3]%float =
    Throw (mkError "Vector dimension mismatch: 2 vs 3") /\
  cosineSimilarity [1; 2; 3]%float [1; 2]%float =
    Throw (mkError "Vector dimension mismatch: 3 vs 2").
Proof.
  split.
  - exact (proj1 (cosineSimilarity_symmetric [1; 2; 3]%float [3; 2; 1]%float) eq_refl).
  - apply (proj2 (cosineSimilarity_symmetric [1; 2]%float [1; 2; 3]%float)).
    simpl. lia.
Defined.

(** An all-zero vector does not always give a zero denominator: the sum of
    squares of the other vector can overflow to infinity, the denominator is
    then [0 * infinity = NaN], the test [denominator === 0] fails and the
    result is [NaN]. *)
Lemma cosineSimilarity_zero_vector_overflow :
  cosineSimilarity [0]%float [0x1p+600]%float = Return nan.
Proof. reflexivity. Qed.

(** ** Sorting a response *)

Section Sorting.
Context {A : Type} (compare : A -> A -> Z).

Lemma sort_insert_Permutation (x : A) (l : list A) :
  sort_insert compare x l ≡ₚ x :: l.
Proof.
  induction l as [|y l IH]; simpl; [reflexivity|].
  destruct (compare x y <=? 0)%Z; [reflexivity|].
  rewrite IH. apply Permutation_swap.
Qed.

Lemma sort_Permutation (l : list A) : sort compare l ≡ₚ l.
Proof.
  induction l as [|x l IH]; simpl; [reflexivity|].
  rewrite sort_insert_Permutation. by f_equiv.
Qed.
End Sorting.

Lemma sort_insert_by_index_Sorted (x : Embedding) (l : list Embedding) :
  Sorted index_le l -> Sorted index_le (sort_insert by_index x l).
Proof.
  induction 1 as [|y l Hl IH Hhd]; simpl.
  - repeat constructor.
  - unfold by_index at 1.
    destruct (Z.leb_spec (index x - index y) 0).
    + constructor; [by constructor|]. constructor. unfold index_le. lia.
    + constructor; [exact IH|].
      destruct Hhd as [|z l' Hyz]; simpl.
      * constructor. unfold index_le. lia.
      * unfold by_index. destruct (Z.leb_spec (index x - index z) 0);
          constructor; unfold index_le in *; lia.
Qed.

Lemma sort_by_index_Sorted (l : list Embedding) : Sorted index_le (sort by_index l).
Proof.
  induction l as [|x l IH]; simpl; [constructor|].
  by apply sort_insert_by_index_Sorted.
Qed.

Lemma Sorted_seqZ_le (m n : Z) : Sorted Z.le (seqZ m n).
Proof.
  destruct (Z.le_gt_cases n 0) as [Hn|Hn]; [rewrite seqZ_nil by lia; constructor|].
  rewrite <- (Z2Nat.id n) by lia. generalize (Z.to_nat n) as k. clear n Hn. intros k.
  revert m. induction k as [|k IH]; intros m; [constructor|].
  rewrite seqZ_cons by lia. replace (Z.pred (Z.of_nat (S k))) with (Z.of_nat k) by lia.
  constructor; [apply IH|].
  destruct k as [|k]; [constructor|].
  rewrite seqZ_cons by lia. constructor. lia.
Qed.

(** When the indices of a response are [0 .. n-1] in some order, sorting
    puts the pair of index [j] at position [j]. *)
Lemma sort_by_index_indices (data : list Embedding) (n : Z) :
  index <$> data ≡ₚ seqZ 0 n ->
  index <$> sort by_index data = seqZ 0 n.
Proof.
  intros Hperm.
  apply (Sorted_unique Z.le).
  - pose proof (sort_by_index_Sorted data) as Hs.
    induction Hs as [|x l Hl IH Hhd]; [constructor|].
    simpl. constructor; [exact IH|].
    destruct Hhd; simpl; constructor; assumption.
  - apply Sorted_seqZ_le.
  - rewrite <- Hperm. apply fmap_Permutation, sort_Permutation.
Qed.

Lemma block_lookup (data : list Embedding) (n : Z) (item : Embedding) :
  index <$> data ≡ₚ seqZ 0 n ->
  item ∈ data ->
  (0 <= index item < n)%Z /\
  block data !! Z.to_nat (index item) = Some (embedding item).
Proof.
  intros Hperm Hin.
  pose proof (sort_by_index_indices data n Hperm) as Hidx.
  assert (Hin' : item ∈ sort by_index data) by (by rewrite sort_Permutation).
  apply list_elem_of_lookup in Hin' as [p Hp].
  assert (Hip : seqZ 0 n !! p = Some (index item))
    by (rewrite <- Hidx, list_lookup_fmap, Hp; reflexivity).
  apply lookup_seqZ in Hip as [Hi Hlt].
  split; [lia|].
  unfold block. rewrite list_lookup_fmap.
  replace (Z.to_nat (index item)) with p by lia.
  rewrite Hp. reflexivity.
Qed.

Lemma block_length (data : list Embedding) (n : nat) :
  index <$> data ≡ₚ seqZ 0 (Z.of_nat n) -> length (block data) = n.
Proof.
  intros Hperm. unfold block.
  rewrite length_fmap, (Permutation_length (sort_Permutation by_index data)).
  rewrite <- (length_fmap index), Hperm, length_seqZ. lia.
Qed.

(** ** The batch loop *)

Lemma batch_count_step (x : nat) :
  0 < x -> batch_count x = S (batch_count (x - 100)).
Proof.
  intros Hx. unfold batch_count.
  destruct (le_lt_dec 100 x) as [Hge|Hlt].
  - replace (x + 99) with ((x - 100 + 99) + 1 * 100) by lia.
    rewrite Nat.div_add by lia. lia.
  - replace (x - 100) with 0 by lia.
    replace (x + 99) with ((x - 1) + 1 * 100) by lia.
    rewrite Nat.div_add by lia.
    rewrite (Nat.div_small (x - 1)) by lia. reflexivity.
Qed.

Lemma batch_count_bounds (n : nat) :
  n <= batch_count n * 100 < n + 100.
Proof.
  unfold batch_count.
  pose proof (Nat.div_mod_eq (n + 99) 100) as Hdm.
  pose proof (Nat.mod_upper_bound (n + 99) 100). lia.
Qed.

Section Loop.
Context {World Cause : Type}.
Variable headroom : nat.
Variable remote :
  OpenAI -> EmbeddingCreateParams -> World -> World * (Cause + option (list Embedding)).
Variables (c : OpenAI) (m : string) (texts : list string).

(** A reply is handled without a throw exactly when it is a response with
    a [data] array of no more pairs than a call takes arguments. *)
Lemma thrown_by_None (limit : nat) (reply : Cause + option (list Embedding)) :
  thrown_by limit reply = None <->
  exists data, reply = inr (Some data) /\ length data <= limit.
Proof.
  destruct reply as [cause|[data|]]; simpl.
  - split; [discriminate | intros (data & [=] & _)].
  - destruct (Nat.leb_spec (length data) limit); split; try discriminate; eauto.
    intros (data' & [= <-] & Hle). lia.
  - split; [discriminate | intros (data & [=] & _)].
Qed.

Lemma thrown_by_Some (limit : nat) (reply : Cause + option (list Embedding))
    (e : Thrown Cause) :
  thrown_by limit reply = Some e <->
  (exists cause, reply = inl cause /\ e = Foreign cause) \/
  (reply = inr None /\ e = Engine TypeError) \/
  (exists data, reply = inr (Some data) /\ limit < length data /\ e = Engine RangeError).
Proof.
  destruct reply as [cause|[data|]]; simpl.
  - split.
    + intros [= <-]. left. eauto.
    + intros [(cause' & [= <-] & ->) | [[[=] _] | (data & [=] & _)]]. reflexivity.
  - destruct (Nat.leb_spec (length data) limit); split.
    + discriminate.
    + intros [(cause & [=] & _) | [[[=] _] | (data' & [= <-] & Hlt & _)]]. lia.
    + intros [= <-]. right. right. eauto.
    + intros [(cause & [=] & _) | [[[=] _] | (data' & _ & _ & ->)]]. reflexivity.
  - split.
    + intros [= <-]. right. left. auto.
    + intros [(cause & [=] & _) | [[_ ->] | (data & [=] & _)]]. reflexivity.
Qed.

(** One iteration: the request, then either the sorted vectors appended, or
    the log entry and the value thrown inside the [try] block thrown again. *)
Lemma embed_batch_run (i : nat) (results : list Vector) (w : World) :
  embed_batch headroom remote c m texts i results w =
    let p := mkParams m (slice texts i (i + BATCH_SIZE)) in
    let '(w', reply) := remote c p w in
    match thrown_by (BATCH_SIZE + headroom) reply with
    | None =>
        mkRun w' [Create c p reply] (Return (results ++ block (data_of reply)))
    | Some e =>
        mkRun w' [Create c p reply; ConsoleError (batch_error_message i) e] (Throw e)
    end.
Proof.
  unfold embed_batch, try_catch, bind, embeddings_create, data_sort, push_spread,
    argument_limit, console_error, throw, ret.
  cbv zeta. destruct (remote c _ w) as [w' [cause|[data|]]]; try reflexivity.
  cbn [outcome world trace thrown_by data_of].
  rewrite length_map, (Permutation_length (sort_Permutation _ data)).
  destruct (length data <=? BATCH_SIZE + headroom)%nat; reflexivity.
Qed.

(** The loop makes as many iterations as there are batches left. *)
Lemma embed_loop_iterations (n i : nat) (results : list Vector) :
  n = batch_count (length texts - i) ->
  embed_loop headroom remote c m texts i results = iterations headroom remote c m texts n i results.
Proof.
  revert i results. induction n as [|n IH]; intros i results Hn;
    rewrite embed_loop_equation_1; destruct (lt_dec i (length texts)) as [Hlt|Hge]; simpl.
  - rewrite batch_count_step in Hn by lia. discriminate.
  - reflexivity.
  - f_equal. apply functional_extensionality. intros results'.
    apply IH. rewrite batch_count_step in Hn by lia.
    unfold BATCH_SIZE. injection Hn as ->. f_equal. lia.
  - exfalso. replace (length texts - i) with 0 in Hn by lia. discriminate.
Qed.

(** One more iteration in front of [n] others. *)
Lemma iterations_step (n k0 : nat) (results : list Vector) (w : World) :
  iterations headroom remote c m texts (S n) (k0 * 100) results w =
    let '(w', reply) := remote c (request m texts k0) w in
    match thrown_by (BATCH_SIZE + headroom) reply with
    | None =>
        let r' := iterations headroom remote c m texts n (S k0 * 100)
                    (results ++ block (data_of reply)) w' in
        mkRun (world r') (Create c (request m texts k0) reply :: trace r') (outcome r')
    | Some e =>
        mkRun w' [Create c (request m texts k0) reply;
                  ConsoleError (batch_error_message (k0 * 100)) e]
          (Throw e)
    end.
Proof.
  cbn [iterations]. unfold bind. rewrite embed_batch_run. cbv zeta.
  change (mkParams m (slice texts (k0 * 100) (k0 * 100 + BATCH_SIZE)))
    with (request m texts k0).
  replace (k0 * 100 + BATCH_SIZE) with (S k0 * 100) by (unfold BATCH_SIZE; lia).
  destruct (remote c (request m texts k0) w) as [w' reply].
  destruct (thrown_by (BATCH_SIZE + headroom) reply); reflexivity.
Qed.

(** What a run of [n] iterations from batch number [k0] looks like: either
    every call was answered with pairs that fit in a call, or the calls up
    to some batch [k0 + j] were, handling the reply for that batch threw
    (the call was rejected, the response had no [data], or it had too many
    pairs), one line was logged and the value was thrown again; nothing
    happens after it. *)
Lemma iterations_cases (n k0 : nat) (results : list Vector) (w : World) :
  let r := iterations headroom remote c m texts n (k0 * 100) results w in
  (exists datas,
      length datas = n /\
      Forall (fun data => length data <= BATCH_SIZE + headroom) datas /\
      trace r = zip_with (answered_call c) (request m texts <$> seq k0 n) datas /\
      outcome r = Return (results ++ concat (block <$> datas))) \/
  (exists j datas reply e,
      j < n /\ length datas = j /\
      thrown_by (BATCH_SIZE + headroom) reply = Some e /\
      trace r = zip_with (answered_call c) (request m texts <$> seq k0 j) datas ++
                [Create c (request m texts (k0 + j)) reply;
                 ConsoleError (batch_error_message ((k0 + j) * 100)) e] /\
      outcome r = Throw e).
Proof.
  cbv zeta. revert k0 results w. induction n as [|n IH]; intros k0 results w.
  - left. exists []. simpl. rewrite app_nil_r. auto.
  - rewrite iterations_step.
    destruct (remote c (request m texts k0) w) as [w' reply].
    destruct (thrown_by (BATCH_SIZE + headroom) reply) as [e|] eqn:Hth;
      cbn [outcome world trace].
    + right. exists 0, [], reply, e. rewrite Nat.add_0_r. simpl. repeat split; auto. lia.
    + apply thrown_by_None in Hth as (data & -> & Hfit). cbn [data_of].
      destruct (IH (S k0) (results ++ block data) w')
        as [(datas & Hlen & Hall & Htr & Hout)
           | (j & datas & reply & e & Hj & Hlen & Hth & Htr & Hout)].
      * left. exists (data :: datas). rewrite Htr, Hout. simpl.
        rewrite Hlen, <- app_assoc. auto.
      * right. exists (S j), (data :: datas), reply, e. rewrite Htr, Hout. simpl.
        rewrite Hlen. replace (k0 + S j) with (S k0 + j) by lia.
        repeat split; auto. lia.
Qed.

Lemma invocations_answered (reqs : list EmbeddingCreateParams) (datas : list (list Embedding)) :
  omap invocation_of (zip_with (answered_call (Cause:=Cause) c) reqs datas) =
    zip reqs (answer_with <$> datas).
Proof.
  revert datas. induction reqs as [|req reqs IH]; intros [|data datas]; simpl; try reflexivity.
  by rewrite IH.
Qed.

Lemma console_answered (reqs : list EmbeddingCreateParams) (datas : list (list Embedding)) :
  omap logged_by (zip_with (answered_call (Cause:=Cause) c) reqs datas) = [].
Proof.
  revert datas. induction reqs as [|req reqs IH]; intros [|data datas]; simpl; try reflexivity.
  apply IH.
Qed.
End Loop.

(** ** The batches *)

Section Batches.
Variable texts : list string.

Lemma slice_length (k : nat) :
  length (slice texts (k * 100) (k * 100 + 100)) = min 100 (length texts - k * 100).
Proof.
  unfold slice. rewrite length_take, length_drop. f_equal. lia.
Qed.

Lemma slice_lookup (k j : nat) :
  j < 100 -> slice texts (k * 100) (k * 100 + 100) !! j = texts !! (k * 100 + j).
Proof.
  intros Hj. unfold slice.
  replace (k * 100 + 100 - k * 100) with 100 by lia.
  rewrite lookup_take_lt by exact Hj. apply lookup_drop.
Qed.

Lemma concat_slices (n k0 : nat) :
  concat ((fun k => slice texts (k * 100) (k * 100 + 100)) <$> seq k0 n) =
    take (n * 100) (drop (k0 * 100) texts).
Proof.
  revert k0. induction n as [|n IH]; intros k0; [reflexivity|].
  cbn [seq fmap list_fmap concat]. rewrite IH. unfold slice.
  replace (k0 * 100 + 100 - k0 * 100) with 100 by lia.
  replace (S k0 * 100) with (k0 * 100 + 100) by lia.
  rewrite <- drop_drop, take_take_drop. f_equal.
Qed.

Lemma batches_length : length (batches texts) = batch_count (length texts).
Proof. unfold batches. by rewrite length_fmap, length_seq. Qed.

Lemma batches_concat : concat (batches texts) = texts.
Proof.
  unfold batches. rewrite concat_slices. simpl. rewrite drop_0.
  apply take_ge. pose proof (batch_count_bounds (length texts)). lia.
Qed.

Lemma batches_lookup (k : nat) (b : list string) :
  batches texts !! k = Some b <->
  k < batch_count (length texts) /\ b = slice texts (k * 100) (k * 100 + 100).
Proof.
  unfold batches. rewrite list_lookup_fmap. split.
  - intros H. destruct (seq 0 _ !! k) as [k'|] eqn:E; [|discriminate].
    apply lookup_seq in E as [-> Hk]. simpl in H. injection H as <-. auto.
  - intros [Hk ->]. rewrite (lookup_seq_lt 0 _ k Hk). reflexivity.
Qed.


End Batches.

(** A position in a concatenation whose leading blocks all hold 100
    elements. *)
Lemma lookup_concat_blocks {A} (blocks : list (list A)) (k j : nat) (l : list A) :
  (forall k' l', k' < k -> blocks !! k' = Some l' -> length l' = 100) ->
  blocks !! k = Some l -> j < length l ->
  concat blocks !! (k * 100 + j) = l !! j.
Proof.
  revert k. induction blocks as [|b blocks IH]; intros k Hfull Hk Hj; [discriminate|].
  change (concat (b :: blocks)) with (b ++ concat blocks).
  destruct k as [|k].
  - injection Hk as ->. rewrite Nat.mul_0_l, Nat.add_0_l. by rewrite lookup_app_l.
  - change ((b :: blocks) !! S k) with (blocks !! k) in Hk.
    assert (Hb : length b = 100) by (apply (Hfull 0); [lia | reflexivity]).
    rewrite lookup_app_r by lia.
    replace (S k * 100 + j - length b) with (k * 100 + j) by lia.
    apply IH; [|exact Hk | exact Hj].
    intros k' l' Hk' Hl'. apply (Hfull (S k')); [lia | exact Hl'].
Qed.

Lemma answered_zip {Cause} (reqs : list EmbeddingCreateParams) (datas : list (list Embedding)) :
  length reqs = length datas ->
  answered (zip reqs ((@answer_with Cause) <$> datas)) = datas.
Proof.
  revert datas. induction reqs as [|req reqs IH]; intros [|data datas] Hlen;
    try discriminate; [reflexivity|].
  simpl in *. unfold answered in *. simpl. f_equal. apply IH. lia.
Qed.

(** ** The embedding client: runs with a client *)

Section Runs.
Context {World Cause : Type}.
Variable headroom : nat.
Variable remote :
  OpenAI -> EmbeddingCreateParams -> World -> World * (Cause + option (list Embedding)).
Variable env : gmap string string.

Lemma embed_iterations (c : OpenAI) (texts : list string) :
  Config.client env = Some c ->
  embed headroom remote env texts =
    iterations headroom remote c (Config.EMBEDDING_MODEL env) texts
      (batch_count (length texts)) 0 [].
Proof.
  intros Hc. unfold embed. rewrite Hc. destruct texts as [|t texts]; [reflexivity|].
  cbn [length Nat.eqb]. apply embed_loop_iterations. reflexivity.
Qed.

(** The two shapes of a run of [embed] with a client. *)
Lemma embed_cases (c : OpenAI) (texts : list string) (w : World) :
  Config.client env = Some c ->
  let r := embed headroom remote env texts w in
  let m := Config.EMBEDDING_MODEL env in
  (exists datas,
      length datas = batch_count (length texts) /\
      Forall (fun data => length data <= BATCH_SIZE + headroom) datas /\
      trace r = zip_with (answered_call c)
                  (request m texts <$> seq 0 (batch_count (length texts))) datas /\
      outcome r = Return (concat (block <$> datas))) \/
  (exists j datas reply e,
      j < batch_count (length texts) /\ length datas = j /\
      thrown_by (BATCH_SIZE + headroom) reply = Some e /\
      trace r = zip_with (answered_call c) (request m texts <$> seq 0 j) datas ++
                [Create c (request m texts j) reply;
                 ConsoleError (batch_error_message (j * 100)) e] /\
      outcome r = Throw e).
Proof.
  intros Hc. cbv zeta. rewrite (embed_iterations c texts Hc).
  exact (iterations_cases headroom remote c (Config.EMBEDDING_MODEL env) texts
           (batch_count (length texts)) 0 [] w).
Qed.

Lemma invocations_need_client (texts : list string) (w : World) :
  invocations (embed headroom remote env texts w) <> [] -> exists c, Config.client env = Some c.
Proof.
  unfold embed. destruct (Config.client env) as [c|]; [eauto|].
  intros H. contradiction H. reflexivity.
Qed.

Lemma answered_not_rejected (reqs : list EmbeddingCreateParams)
    (datas : list (list Embedding)) (k : nat) (req : EmbeddingCreateParams) (cause : Cause) :
  zip reqs (answer_with <$> datas) !! k <> Some (req, inl cause).
Proof.
  intros H. apply lookup_zip_with_Some in H as (x & y & [= _ <-] & _ & Hy).
  rewrite list_lookup_fmap in Hy. destruct (datas !! k); discriminate.
Qed.

Lemma length_answered (reqs : list EmbeddingCreateParams) (datas : list (list Embedding)) :
  length reqs = length datas ->
  length (zip reqs ((@answer_with Cause) <$> datas)) = length datas.
Proof. intros H. rewrite length_zip_with, length_fmap. lia. Qed.

(** C2 (amended). When the call for some batch is rejected, [embed] throws
    the very value the provider rejected with, unchanged and unwrapped (it
    is [Foreign cause], not an error of the module's own that would hold
    an offset). The batch's starting offset appears only in the one line
    the run logs with [console.error], together with that value. The
    rejected call is the last invocation of the run, so no later batch is
    invoked; it was made for the batch at that offset; and the outcome is
    a throw, so no result sequence, partial or not, is returned. *)
Theorem embed_provider_failure (texts : list string) (w : World)
    (k : nat) (req : EmbeddingCreateParams) (cause : Cause) :
  invocations (embed headroom remote env texts w) !! k = Some (req, inl cause) ->
  outcome (embed headroom remote env texts w) = Throw (Foreign cause) /\
  (forall vs, outcome (embed headroom remote env texts w) <> Return vs) /\
  length (invocations (embed headroom remote env texts w)) = S k /\
  req = mkParams (Config.EMBEDDING_MODEL env) (slice texts (k * 100) (k * 100 + 100)) /\
  console (embed headroom remote env texts w) =
    [("Error generating embeddings for batch " +:+ pretty (k * 100) +:+ ":",
      Foreign cause)] /\
  (exists c before,
     Config.client env = Some c /\
     trace (embed headroom remote env texts w) =
       before ++ [Create c req (inl cause);
                  ConsoleError (batch_error_message (k * 100)) (Foreign cause)] /\
     (forall req' reply, (req', reply) ∈ omap invocation_of before ->
                         exists data, reply = inr (Some data))).
Proof.
  intros Hk.
  destruct (invocations_need_client texts w) as [c Hc].
  { intros Hnil. rewrite Hnil in Hk. discriminate. }
  destruct (embed_cases c texts w Hc)
    as [(datas & Hlen & _ & Htr & Hout)
       | (j & datas & reply' & e & Hj & Hlen & Hth & Htr & Hout)];
    unfold invocations, console in *; rewrite Htr in *.
  - rewrite invocations_answered in Hk. by apply answered_not_rejected in Hk.
  - rewrite omap_app, invocations_answered in Hk. simpl in Hk.
    assert (Hzip : length (zip (request (Config.EMBEDDING_MODEL env) texts <$> seq 0 j)
                             ((@answer_with Cause) <$> datas)) = j).
    { rewrite length_answered; [exact Hlen|]. by rewrite length_fmap, length_seq. }
    assert (k = j) as ->.
    { destruct (Nat.lt_trichotomy k j) as [Hlt|[Heq|Hgt]]; [|exact Heq|].
      - rewrite lookup_app_l in Hk by lia. by apply answered_not_rejected in Hk.
      - rewrite lookup_app_r in Hk by lia. rewrite Hzip in Hk.
        destruct (k - j) as [|[|d]] eqn:E; [lia|discriminate..]. }
    rewrite lookup_app_r in Hk by lia. rewrite Hzip, Nat.sub_diag in Hk.
    injection Hk as <- ->. injection Hth as <-.
    rewrite !omap_app, invocations_answered, console_answered, length_app, Hzip.
    rewrite Hout. repeat split; try reflexivity.
    + discriminate.
    + simpl. lia.
    + exists c. eexists. split; [exact Hc|]. split; [reflexivity|].
      intros req' reply Hin. rewrite invocations_answered in Hin.
      apply elem_of_zip_r in Hin. apply list_elem_of_fmap in Hin as (data & -> & _). eauto.
Qed.
End Runs.

Lemma length_concat_same_shape {A B} (ls : list (list A)) (ks : list (list B)) :
  Forall2 (fun l k => length l = length k) ls ks ->
  length (concat ls) = length (concat ks).
Proof.
  induction 1 as [|l k ls ks Hlk _ IH]; [reflexivity|].
  simpl. rewrite !length_app. lia.
Qed.

Section Order.
Context {World Cause : Type}.
Variable headroom : nat.
Variable remote :
  OpenAI -> EmbeddingCreateParams -> World -> World * (Cause + option (list Embedding)).
Variable env : gmap string string.

End Order.



Section Preservation.
Context {World Cause : Type}.
Variable headroom : nat.
Variable remote :
  OpenAI -> EmbeddingCreateParams -> World -> World * (Cause + option (list Embedding)).
Variable env : gmap string string.

(** C1. With a client, for every input on which every provider call of
    the run is answered with exactly one pair per input of its batch (the
    indices of the response are [0 .. n-1] in some order, [n] the size of
    the batch), [embed] returns a sequence [vs] as long as the input. [vs]
    is the concatenation, in the order of the calls, of each response's
    vectors taken in ascending order of index. The text at position [g]
    was sent at position [g mod 100] of call number [g / 100], and [vs] at
    [g] is the vector the response to that call pairs with the index
    [g mod 100]. *)
Theorem embed_preserves_order (c : OpenAI) (texts : list string) (w : World) :
  Config.client env = Some c ->
  (forall req reply, (req, reply) ∈ invocations (embed headroom remote env texts w) ->
     exists data, reply = inr (Some data) /\
                  index <$> data ≡ₚ seqZ 0 (Z.of_nat (length (input req)))) ->
  exists vs,
    outcome (embed headroom remote env texts w) = Return vs /\
    length vs = length texts /\
    vs = concat ((fun data => embedding <$> sort by_index data) <$>
                   answered (invocations (embed headroom remote env texts w))) /\
    (forall data, data ∈ answered (invocations (embed headroom remote env texts w)) ->
                  Sorted index_le (sort by_index data)) /\
    (forall g text, texts !! g = Some text ->
       exists req data item,
         invocations (embed headroom remote env texts w) !! (g / 100) =
           Some (req, inr (Some data)) /\
         input req !! (g mod 100) = Some text /\
         item ∈ data /\ index item = Z.of_nat (g mod 100) /\
         vs !! g = Some (embedding item)).
Proof.
  intros Hc Hok.
  set (m := Config.EMBEDDING_MODEL env).
  set (nb := batch_count (length texts)).
  destruct (embed_cases headroom remote env c texts w Hc)
    as [(datas & Hlen & _ & Htr & Hout)
       | (j & datas & reply & e & Hj & Hlen & Hth & Htr & Hout)];
    unfold invocations in *; rewrite Htr in *.
  2:{ exfalso. destruct (Hok (request m texts j) reply) as (data & -> & Hp).
      { rewrite omap_app. apply elem_of_app. right. simpl. apply elem_of_cons. by left. }
      apply Permutation_length in Hp.
      rewrite length_fmap, length_seqZ in Hp. simpl in Hp.
      pose proof (slice_length texts j) as Hs.
      assert (Hnone : thrown_by (BATCH_SIZE + headroom) (@inr Cause _ (Some data)) = None).
      { apply thrown_by_None. exists data. split; [reflexivity|]. unfold BATCH_SIZE. lia. }
      congruence. }
  fold m nb in Hlen, Htr, Hout, Hok |- *.
  rewrite invocations_answered in *.
  assert (Hreqs : length (request m texts <$> seq 0 nb) = nb)
    by (by rewrite length_fmap, length_seq).
  assert (Hcall : forall k data, datas !! k = Some data ->
            k < nb /\
            zip (request m texts <$> seq 0 nb) ((@answer_with Cause) <$> datas) !! k =
              Some (request m texts k, inr (Some data))).
  { intros k data Hk. assert (k < nb) by (apply lookup_lt_Some in Hk; lia).
    split; [assumption|]. apply lookup_zip_with_Some.
    exists (request m texts k), (inr (Some data)). split; [reflexivity|]. split.
    - rewrite list_lookup_fmap, lookup_seq_lt by assumption. reflexivity.
    - rewrite list_lookup_fmap, Hk. reflexivity. }
  assert (Hperm : forall k data, datas !! k = Some data ->
            index <$> data ≡ₚ
              seqZ 0 (Z.of_nat (length (slice texts (k * 100) (k * 100 + 100))))).
  { intros k data Hk. destruct (Hcall k data Hk) as [_ Hz].
    destruct (Hok (request m texts k) (inr (Some data))) as (data' & [= <-] & Hp).
    - apply list_elem_of_lookup. eauto.
    - exact Hp. }
  assert (Hblock : forall k data, datas !! k = Some data ->
            length (block data) = length (slice texts (k * 100) (k * 100 + 100))).
  { intros k data Hk. apply block_length, Hperm, Hk. }
  exists (concat (block <$> datas)).
  split; [exact Hout|]. split; [|split; [|split]].
  - rewrite <- (batches_concat texts) at 1.
    apply length_concat_same_shape, Forall2_same_length_lookup. split.
    + rewrite length_fmap, batches_length. exact Hlen.
    + intros k l b Hl Hb. rewrite list_lookup_fmap in Hl.
      destruct (datas !! k) as [data|] eqn:Hk; [|discriminate].
      injection Hl as <-. apply batches_lookup in Hb as [_ ->]. by apply (Hblock k).
  - rewrite answered_zip by lia. reflexivity.
  - intros data _. apply sort_by_index_Sorted.
  - intros g text Hg.
    assert (HgN : g < length texts) by (by apply lookup_lt_Some in Hg).
    pose proof (Nat.div_mod_eq g 100) as Hdm.
    pose proof (Nat.mod_upper_bound g 100 ltac:(lia)) as Hmod.
    pose proof (batch_count_bounds (length texts)) as Hnb. fold nb in Hnb.
    set (k := g / 100) in *. set (j := g mod 100) in *.
    assert (Hk : k < nb) by nia.
    destruct (lookup_lt_is_Some_2 datas k ltac:(lia)) as [data Hdata].
    destruct (Hcall k data Hdata) as [_ Hz].
    assert (Hin : slice texts (k * 100) (k * 100 + 100) !! j = Some text).
    { rewrite slice_lookup by assumption. rewrite <- Hg. f_equal. lia. }
    assert (Hj : j < length (slice texts (k * 100) (k * 100 + 100)))
      by (by apply lookup_lt_Some in Hin).
    assert (Hitem : exists item, item ∈ data /\ index item = Z.of_nat j).
    { assert (Hmem : Z.of_nat j ∈ index <$> data).
      { rewrite (Hperm k data Hdata). apply elem_of_seqZ. lia. }
      apply list_elem_of_fmap in Hmem as (item & Hi & Hmem). eauto. }
    destruct Hitem as (item & Hitem & Hi).
    exists (request m texts k), data, item.
    split; [exact Hz|]. split; [exact Hin|]. split; [exact Hitem|]. split; [exact Hi|].
    replace g with (k * 100 + j) by lia.
    rewrite (lookup_concat_blocks (block <$> datas) k j (block data)).
    + destruct (block_lookup data _ item (Hperm k data Hdata) Hitem) as [_ Hb].
      rewrite Hi, Nat2Z.id in Hb. exact Hb.
    + intros k' l' Hk' Hl'. rewrite list_lookup_fmap in Hl'.
      destruct (datas !! k') as [data'|] eqn:Hdata'; [|discriminate].
      injection Hl' as <-. rewrite (Hblock k' data' Hdata'), slice_length. lia.
    + rewrite list_lookup_fmap, Hdata. reflexivity.
    + rewrite (Hblock k data Hdata). exact Hj.
Qed.
End Preservation.

Lemma embed_preserves_order_witness :
  exists vs,
    outcome (embed Demo.headroom Demo.remote Demo.env_openai (Demo.texts_101 "last") tt) = Return vs /\
    length vs = 101 /\
    vs !! 0 = Some [0%float] /\ vs !! 99 = Some [99%float] /\ vs !! 100 = Some [0%float].
Proof.
  assert (Hall : Forall (fun call => exists data, call.2 = inr (Some data) /\
                   index <$> data ≡ₚ seqZ 0 (Z.of_nat (length (input call.1))))
                   (invocations (embed Demo.headroom Demo.remote Demo.env_openai (Demo.texts_101 "last") tt))).
  { repeat (constructor;
            [eexists; split; [reflexivity|]; apply (bool_decide_unpack _); vm_compute; reflexivity|]).
    constructor. }
  destruct (embed_preserves_order Demo.headroom Demo.remote Demo.env_openai
              (mkOpenAI "sk-1" "https://api.openai.com/v1" None)
              (Demo.texts_101 "last") tt eq_refl
              (fun req reply Hin => proj1 (Forall_forall _ _) Hall (req, reply) Hin))
    as (vs & Hout & Hlen & Hvs & _ & _).
  exists vs. split; [exact Hout|]. split; [exact Hlen|].
  rewrite Hvs. vm_compute. auto.
Defined.

Lemma embed_provider_failure_witness :
  outcome (embed Demo.headroom Demo.remote Demo.env_openai (Demo.texts_101 "bad") tt) =
    Throw (Foreign "rate limit") /\
  length (invocations (embed Demo.headroom Demo.remote Demo.env_openai (Demo.texts_101 "bad") tt)) = 2 /\
  console (embed Demo.headroom Demo.remote Demo.env_openai (Demo.texts_101 "bad") tt) =
    [("Error generating embeddings for batch 100:", Foreign "rate limit")].
Proof.
  assert (Hk : invocations (embed Demo.headroom Demo.remote Demo.env_openai (Demo.texts_101 "bad") tt) !! 1 =
               Some (mkParams "openai/text-embedding-3-small" ["bad"], inl "rate limit"))
    by (vm_compute; reflexivity).
  destruct (embed_provider_failure Demo.headroom Demo.remote Demo.env_openai (Demo.texts_101 "bad") tt
              1 _ _ Hk) as (Hout & _ & Hlen & _ & Hlog & _).
  split; [exact Hout|]. split; [exact Hlen | exact Hlog].
Defined.

(** C2 as stated fails: the value [embed] throws carries no offset. Two
    runs whose rejected batches start at offsets 0 and 100 throw the same
    value, so no reading of the thrown value gives the offset of the batch
    that failed; the offsets only show in what the two runs logged. *)
Lemma thrown_value_carries_no_offset :
  let r0 := embed Demo.headroom Demo.remote Demo.env_openai ["bad"] tt in
  let r100 := embed Demo.headroom Demo.remote Demo.env_openai (Demo.texts_101 "bad") tt in
  invocations r0 !! 0 = Some (mkParams "openai/text-embedding-3-small" ["bad"], inl "rate limit") /\
  invocations r100 !! 1 = Some (mkParams "openai/text-embedding-3-small" ["bad"], inl "rate limit") /\
  outcome r0 = Throw (Foreign "rate limit") /\
  outcome r100 = Throw (Foreign "rate limit") /\
  console r0 = [("Error generating embeddings for batch 0:", Foreign "rate limit")] /\
  console r100 = [("Error generating embeddings for batch 100:", Foreign "rate limit")] /\
  ~ (exists offset_of : Thrown string -> nat,
       (forall e, outcome r0 = Throw e -> offset_of e = 0) /\
       (forall e, outcome r100 = Throw e -> offset_of e = 100)).
Proof.
  cbv zeta.
  assert (H0 : outcome (embed Demo.headroom Demo.remote Demo.env_openai ["bad"] tt) =
               Throw (Foreign "rate limit")) by (vm_compute; reflexivity).
  assert (H100 : outcome (embed Demo.headroom Demo.remote Demo.env_openai (Demo.texts_101 "bad") tt) =
                 Throw (Foreign "rate limit")) by (vm_compute; reflexivity).
  repeat split; try (vm_compute; reflexivity).
  intros (offset_of & Hat0 & Hat100).
  specialize (Hat0 _ H0). specialize (Hat100 _ H100). congruence.
Qed.

Lemma getEmbeddingDimensions_lookup_witness :
  getEmbeddingDimensions {[ "QMD_EMBEDDING_MODEL" := "my/own-model" ]} = JsNumber 1536 /\
  getEmbeddingDimensions {[ "QMD_EMBEDDING_MODEL" := "openai/text-embedding-3-large" ]} = JsNumber 3072.
Proof.
  assert (H1 : Config.EMBEDDING_MODEL {[ "QMD_EMBEDDING_MODEL" := "my/own-model" ]}
                 ∉ Object_prototype)
    by (apply (bool_decide_eq_false_1 _); vm_compute; reflexivity).
  assert (H2 : Config.EMBEDDING_MODEL {[ "QMD_EMBEDDING_MODEL" := "openai/text-embedding-3-large" ]}
                 ∉ Object_prototype)
    by (apply (bool_decide_eq_false_1 _); vm_compute; reflexivity).
  split.
  - exact (getEmbeddingDimensions_lookup _ H1).
  - exact (getEmbeddingDimensions_lookup _ H2).
Defined.

(** ** [embedSingle] and the examples of the specification *)

(** [embedSingle] runs [embed] on the one text: the same world, trace and
    thrown value, and on success the first vector of the result. *)
Lemma embedSingle_run {World Cause : Type}
    (headroom : nat)
    (remote : OpenAI -> EmbeddingCreateParams -> World ->
              World * (Cause + option (list Embedding)))
    (env : gmap string string) (text : string) (w : World) :
  embedSingle headroom remote env text w =
    mkRun (world (embed headroom remote env [text] w)) (trace (embed headroom remote env [text] w))
      match outcome (embed headroom remote env [text] w) with
      | Return vectors => Return (head vectors)
      | Throw e => Throw e
      end.
Proof.
  unfold embedSingle, bind.
  destruct (outcome (embed headroom remote env [text] w)); simpl; [|reflexivity].
  by rewrite app_nil_r.
Qed.

Lemma cosineSimilarity_examples :
  cosineSimilarity [1; 0]%float [0; 1]%float = Return 0%float /\
  cosineSimilarity [1; 2; 3]%float [1; 2; 3]%float = Return 1%float /\
  cosineSimilarity [0; 0]%float [1; 2]%float = Return 0%float /\
  cosineSimilarity [1; 2]%float [1; 2; 3]%float =
    Throw (mkError "Vector dimension mismatch: 2 vs 3").
Proof. repeat split; reflexivity. Qed.

(** * Further properties of the module *)

(** ** Configuration: names, warning, invariants of the client *)

(** The model name is never empty: it is the value of [QMD_EMBEDDING_MODEL]
    when that is set to a non-empty string, and the default small model in
    every other case. *)
Theorem getModelName_never_empty (env : gmap string string) :
  Config.getModelName env <> "" /\
  (forall name, env !! "QMD_EMBEDDING_MODEL" = Some name -> name <> "" ->
     Config.getModelName env = name) /\
  (~ present (env !! "QMD_EMBEDDING_MODEL") ->
     Config.getModelName env = "openai/text-embedding-3-small").
Proof.
  unfold Config.getModelName, Config.EMBEDDING_MODEL, present.
  destruct (env !! "QMD_EMBEDDING_MODEL") as [name|]; simpl.
  - destruct (String.eqb_spec name "") as [->|Hne]; simpl.
    + split; [discriminate|]. split; [|reflexivity].
      intros name' [= <-] Hne. contradiction.
    + split; [exact Hne|]. split; [congruence|].
      intros H. contradiction H. reflexivity.
  - split; [discriminate|]. split; [discriminate | reflexivity].
Qed.

Lemma getModelName_never_empty_witness :
  Config.getModelName {[ "QMD_EMBEDDING_MODEL" := "cohere/embed-english-v3.0" ]} =
    "cohere/embed-english-v3.0" /\
  Config.getModelName {[ "QMD_EMBEDDING_MODEL" := "" ]} = "openai/text-embedding-3-small".
Proof.
  split.
  - apply (proj1 (proj2 (getModelName_never_empty
                           {[ "QMD_EMBEDDING_MODEL" := "cohere/embed-english-v3.0" ]})));
      [reflexivity | discriminate].
  - apply (proj2 (proj2 (getModelName_never_empty {[ "QMD_EMBEDDING_MODEL" := "" ]}))).
    vm_compute. discriminate.
Defined.



(** Whatever the environment, a client that exists has a non-empty key,
    which is the value of one of the two credential variables, and a
    non-empty endpoint; and it has extra headers only in the OpenRouter
    case: then the headers are the two OpenRouter ones, the endpoint is the
    OpenRouter one, the key is [OPENROUTER_API_KEY] and [OPENAI_API_KEY] is
    not present. *)
Theorem client_invariant (env : gmap string string) (c : OpenAI) :
  Config.client env = Some c ->
  apiKey c <> "" /\ baseURL c <> "" /\
  (env !! "OPENAI_API_KEY" = Some (apiKey c) \/
   env !! "OPENROUTER_API_KEY" = Some (apiKey c)) /\
  (forall headers, defaultHeaders c = Some headers ->
     headers = [("HTTP-Referer", "https://github.com/qmd"); ("X-Title", "QMD Knowledge Base")] /\
     baseURL c = "https://openrouter.ai/api/v1" /\
     env !! "OPENROUTER_API_KEY" = Some (apiKey c) /\
     ~ present (env !! "OPENAI_API_KEY")).
Proof.
  unfold Config.client, Config.API_KEY, Config.BASE_URL, Config.OPENAI_BASE_URL, or_else,
    Config.OPENAI_API_KEY, Config.OPENROUTER_API_KEY, present.
  destruct (env !! "OPENAI_API_KEY") as [k1|] eqn:E1; simpl.
  - destruct (String.eqb_spec k1 "") as [->|Hk1]; simpl.
    + destruct (env !! "OPENROUTER_API_KEY") as [k2|] eqn:E2; [|discriminate].
      destruct (String.eqb_spec k2 "") as [->|Hk2]; [discriminate|].
      intros [= <-]. simpl. destruct (String.eqb_spec k2 ""); [contradiction|]. simpl.
      split; [exact Hk2|]. split; [discriminate|]. split; [by right|].
      intros headers [= <-]. repeat split; discriminate.
    + destruct (String.eqb_spec k1 ""); [contradiction|].
      intros [= <-]. simpl. rewrite andb_false_r.
      split; [exact Hk1|]. split; [|split; [by left | discriminate]].
      destruct (env !! "OPENAI_BASE_URL") as [u|]; simpl; [|discriminate].
      destruct (String.eqb_spec u ""); [discriminate | assumption].
  - destruct (env !! "OPENROUTER_API_KEY") as [k2|] eqn:E2; [|discriminate].
    destruct (String.eqb_spec k2 "") as [->|Hk2]; [discriminate|].
    intros [= <-]. simpl. destruct (String.eqb_spec k2 ""); [contradiction|]. simpl.
    split; [exact Hk2|]. split; [discriminate|]. split; [by right|].
    intros headers [= <-]. repeat split; discriminate.
Qed.

Lemma client_invariant_witness :
  exists c, Config.client Demo.env_openrouter = Some c /\
            apiKey c <> "" /\ baseURL c <> "".
Proof.
  exists (mkOpenAI "or-1" "https://openrouter.ai/api/v1" (Some Config.openrouter_headers)).
  assert (Hc : Config.client Demo.env_openrouter =
               Some (mkOpenAI "or-1" "https://openrouter.ai/api/v1"
                       (Some Config.openrouter_headers))) by reflexivity.
  destruct (client_invariant Demo.env_openrouter _ Hc) as (Hkey & Hurl & _).
  split; [exact Hc|]. split; [exact Hkey | exact Hurl].
Defined.

(** ** Configuration: what the resolution does not depend on *)

Lemma lookup_empty_or_unset (env : gmap string string) (k name : string) :
  <[k := ""]> env !! name = delete k env !! name \/
  (<[k := ""]> env !! name = Some "" /\ delete k env !! name = None).
Proof.
  destruct (decide (k = name)) as [->|Hne].
  - right. by rewrite lookup_insert_eq, lookup_delete_eq.
  - left. by rewrite lookup_insert_ne, lookup_delete_ne.
Qed.

(** Setting any variable to the empty string is the same as not setting it:
    the client, the model name, the dimension and the load-time warning are
    those of the environment without the variable. *)
Theorem empty_variable_is_unset (env : gmap string string) (k : string) :
  Config.client (<[k := ""]> env) = Config.client (delete k env) /\
  Config.getModelName (<[k := ""]> env) = Config.getModelName (delete k env) /\
  getEmbeddingDimensions (<[k := ""]> env) = getEmbeddingDimensions (delete k env) /\
  Config.startup_warnings (<[k := ""]> env) = Config.startup_warnings (delete k env).
Proof.
  assert (Hmodel : Config.EMBEDDING_MODEL (<[k := ""]> env) =
                   Config.EMBEDDING_MODEL (delete k env)).
  { unfold Config.EMBEDDING_MODEL.
    destruct (lookup_empty_or_unset env k "QMD_EMBEDDING_MODEL") as [-> | [-> ->]];
      reflexivity. }
  assert (Hkey : truthy (Config.API_KEY (<[k := ""]> env)) =
                 truthy (Config.API_KEY (delete k env)) /\
                 Config.client (<[k := ""]> env) = Config.client (delete k env)).
  { unfold Config.client, Config.API_KEY, Config.BASE_URL, Config.OPENAI_BASE_URL, or_else,
      Config.OPENAI_API_KEY, Config.OPENROUTER_API_KEY.
    destruct (lookup_empty_or_unset env k "OPENAI_API_KEY") as [-> | [-> ->]];
      destruct (lookup_empty_or_unset env k "OPENROUTER_API_KEY") as [-> | [-> ->]];
      destruct (lookup_empty_or_unset env k "OPENAI_BASE_URL") as [-> | [-> ->]];
      simpl;
      destruct (delete k env !! "OPENAI_API_KEY") as [k1|]; simpl;
      try destruct (String.eqb k1 ""); simpl;
      destruct (delete k env !! "OPENROUTER_API_KEY") as [k2|]; simpl;
      try destruct (String.eqb k2 ""); simpl; auto. }
  destruct Hkey as [Htruthy Hclient].
  split; [exact Hclient|]. split; [exact Hmodel|]. split.
  - unfold getEmbeddingDimensions. by rewrite Hmodel.
  - unfold Config.startup_warnings. by rewrite Htruthy.
Qed.

(** The primary credential shadows the secondary one, and the endpoint
    override belongs to the primary one: while [OPENAI_API_KEY] is present
    the client does not depend on [OPENROUTER_API_KEY], and while it is not
    present the client does not depend on [OPENAI_BASE_URL]. The model
    variable never affects the client. *)
Theorem client_frame (env : gmap string string) (v : string) :
  (present (env !! "OPENAI_API_KEY") ->
     Config.client (<["OPENROUTER_API_KEY" := v]> env) = Config.client env /\
     Config.client (delete "OPENROUTER_API_KEY" env) = Config.client env) /\
  (~ present (env !! "OPENAI_API_KEY") ->
     Config.client (<["OPENAI_BASE_URL" := v]> env) = Config.client env /\
     Config.client (delete "OPENAI_BASE_URL" env) = Config.client env) /\
  Config.client (<["QMD_EMBEDDING_MODEL" := v]> env) = Config.client env.
Proof.
  unfold present, Config.client, Config.API_KEY, Config.BASE_URL, Config.OPENAI_BASE_URL,
    or_else, Config.OPENAI_API_KEY, Config.OPENROUTER_API_KEY.
  split; [|split].
  - intros Hp.
    rewrite (lookup_insert_ne env "OPENROUTER_API_KEY" "OPENAI_API_KEY") by done.
    rewrite (lookup_insert_ne env "OPENROUTER_API_KEY" "OPENAI_BASE_URL") by done.
    rewrite (lookup_delete_ne env "OPENROUTER_API_KEY" "OPENAI_API_KEY") by done.
    rewrite (lookup_delete_ne env "OPENROUTER_API_KEY" "OPENAI_BASE_URL") by done.
    rewrite !Hp.
    destruct (env !! "OPENAI_API_KEY") as [k1|]; [|discriminate].
    simpl in *. destruct (String.eqb k1 ""); [discriminate|].
    rewrite !andb_false_r. auto.
  - intros Hp%not_true_is_false.
    rewrite (lookup_insert_ne env "OPENAI_BASE_URL" "OPENAI_API_KEY") by done.
    rewrite (lookup_insert_ne env "OPENAI_BASE_URL" "OPENROUTER_API_KEY") by done.
    rewrite (lookup_delete_ne env "OPENAI_BASE_URL" "OPENAI_API_KEY") by done.
    rewrite (lookup_delete_ne env "OPENAI_BASE_URL" "OPENROUTER_API_KEY") by done.
    rewrite !Hp. auto.
  - rewrite (lookup_insert_ne env "QMD_EMBEDDING_MODEL" "OPENAI_API_KEY") by done.
    rewrite (lookup_insert_ne env "QMD_EMBEDDING_MODEL" "OPENROUTER_API_KEY") by done.
    rewrite (lookup_insert_ne env "QMD_EMBEDDING_MODEL" "OPENAI_BASE_URL") by done.
    reflexivity.
Qed.

Lemma client_frame_witness :
  Config.client (<["OPENROUTER_API_KEY" := "or-2"]> Demo.env_openai) =
    Config.client Demo.env_openai /\
  Config.client (<["OPENAI_BASE_URL" := "http://localhost:1"]> Demo.env_openrouter) =
    Config.client Demo.env_openrouter.
Proof.
  split.
  - apply (proj1 (client_frame Demo.env_openai "or-2")). reflexivity.
  - apply (proj1 (proj2 (client_frame Demo.env_openrouter "http://localhost:1"))).
    vm_compute. discriminate.
Defined.

(** ** The dimension table: the whole behaviour *)

Lemma Object_prototype_not_own (key : string) :
  key ∈ Object_prototype -> MODEL_DIMENSIONS !! key = None.
Proof.
  unfold Object_prototype. intros H.
  repeat (apply elem_of_cons in H as [->|H]; [vm_compute; reflexivity|]).
  by apply elem_of_nil in H.
Qed.

(** [getEmbeddingDimensions] returns a number exactly when the model name
    is no property name of [Object.prototype]; the number is then 1536, 3072
    or 1024 (never 0, never undefined). For each of the twelve property
    names of [Object.prototype] it returns the inherited member instead. *)
Theorem getEmbeddingDimensions_number_iff (env : gmap string string) :
  ((exists n, getEmbeddingDimensions env = JsNumber n) <->
     Config.getModelName env ∉ Object_prototype) /\
  (forall n, getEmbeddingDimensions env = JsNumber n ->
     n = 1536%Z \/ n = 3072%Z \/ n = 1024%Z) /\
  (Config.getModelName env ∈ Object_prototype ->
     getEmbeddingDimensions env = JsInherited (Config.getModelName env)) /\
  getEmbeddingDimensions env <> JsUndefined.
Proof.
  unfold Config.getModelName.
  destruct (decide (Config.EMBEDDING_MODEL env ∈ Object_prototype)) as [Hin|Hout].
  - assert (Hres : getEmbeddingDimensions env = JsInherited (Config.EMBEDDING_MODEL env)).
    { unfold getEmbeddingDimensions, get.
      rewrite (Object_prototype_not_own _ Hin), bool_decide_eq_true_2 by exact Hin.
      reflexivity. }
    rewrite Hres. split; [|split; [|split]]; try discriminate; auto.
    split; [intros [n [=]] | intros Hno; contradiction].
  - assert (Hres : getEmbeddingDimensions env =
                   JsNumber (default 1536%Z (MODEL_DIMENSIONS !! Config.EMBEDDING_MODEL env))).
    { unfold getEmbeddingDimensions, get.
      destruct (MODEL_DIMENSIONS !! Config.EMBEDDING_MODEL env) as [d|] eqn:E; simpl.
      - apply MODEL_DIMENSIONS_nonzero in E.
        destruct (Z.eqb_spec d 0); [contradiction | reflexivity].
      - rewrite bool_decide_eq_false_2 by exact Hout. reflexivity. }
    rewrite Hres.
    split; [|split; [|split]]; try discriminate.
    + split; eauto.
    + intros n [= <-].
      destruct (MODEL_DIMENSIONS !! Config.EMBEDDING_MODEL env) as [d|] eqn:E; simpl; [|auto].
      apply MODEL_DIMENSIONS_entries in E.
      repeat (apply elem_of_cons in E as [[= _ ->] | E]; [auto|]).
      by apply elem_of_nil in E.
    + intros Hin. contradiction.
Qed.

Lemma getEmbeddingDimensions_number_iff_witness :
  getEmbeddingDimensions {[ "QMD_EMBEDDING_MODEL" := "toString" ]} = JsInherited "toString".
Proof.
  assert (Hin : Config.getModelName {[ "QMD_EMBEDDING_MODEL" := "toString" ]}
                  ∈ Object_prototype)
    by (apply (bool_decide_unpack _); vm_compute; reflexivity).
  exact (proj1 (proj2 (proj2 (getEmbeddingDimensions_number_iff
                                {[ "QMD_EMBEDDING_MODEL" := "toString" ]}))) Hin).
Defined.

(** ** The embedding client: what every run satisfies *)

Section EveryRun.
Context {World Cause : Type}.
Variable headroom : nat.
Variable remote :
  OpenAI -> EmbeddingCreateParams -> World -> World * (Cause + option (list Embedding)).
Variable env : gmap string string.

Lemma block_Permutation (data : list Embedding) : block data ≡ₚ embedding <$> data.
Proof. unfold block. apply fmap_Permutation, sort_Permutation. Qed.

Lemma concat_block_Permutation (datas : list (list Embedding)) :
  concat (block <$> datas) ≡ₚ concat ((fun data : list Embedding => embedding <$> data) <$> datas).
Proof.
  induction datas as [|data datas IH]; [reflexivity|].
  change (block data ++ concat (block <$> datas) ≡ₚ
          (embedding <$> data) ++
            concat ((fun data : list Embedding => embedding <$> data) <$> datas)).
  by rewrite block_Permutation, IH.
Qed.

Lemma length_concat_block (datas : list (list Embedding)) :
  length (concat (block <$> datas)) = sum_list (length <$> datas).
Proof.
  induction datas as [|data datas IH]; [reflexivity|].
  change (length (block data ++ concat (block <$> datas)) =
          length data + sum_list (length <$> datas)).
  rewrite length_app, IH, (Permutation_length (block_Permutation data)), length_fmap.
  reflexivity.
Qed.

(** Every request [embed] makes, in any run, goes through the configured
    client, names the model [getModelName] returns, and carries between 1
    and 100 texts, which are consecutive texts of the input starting at a
    multiple of 100: the provider never receives an empty batch or one over
    the limit. *)
Theorem embed_requests_within_limit (texts : list string) (w : World)
    (c : OpenAI) (req : EmbeddingCreateParams) (reply : Cause + option (list Embedding)) :
  Create c req reply ∈ trace (embed headroom remote env texts w) ->
  Config.client env = Some c /\
  model req = Config.getModelName env /\
  1 <= length (input req) <= 100 /\
  exists k, k * 100 < length texts /\ input req = take 100 (drop (k * 100) texts).
Proof.
  intros Hin.
  destruct (Config.client env) as [c'|] eqn:Hc.
  2:{ unfold embed in Hin. rewrite Hc in Hin. by apply elem_of_nil in Hin. }
  pose proof (batch_count_bounds (length texts)) as Hnb.
  assert (Hreq : exists k, k < batch_count (length texts) /\ c = c' /\
                           req = request (Config.EMBEDDING_MODEL env) texts k).
  { destruct (embed_cases headroom remote env c' texts w Hc)
      as [(datas & Hlen & _ & Htr & Hout)
         | (j & datas & reply' & e & Hj & Hlen & _ & Htr & Hout)];
      rewrite Htr in Hin.
    - apply elem_of_lookup_zip_with in Hin as (i & x & y & [= -> -> _] & Hx & _).
      rewrite list_lookup_fmap in Hx.
      destruct (seq 0 _ !! i) as [k|] eqn:E; [|discriminate].
      apply lookup_seq in E as [-> Hk]. injection Hx as <-. eauto.
    - apply elem_of_app in Hin as [Hin|Hin].
      + apply elem_of_lookup_zip_with in Hin as (i & x & y & [= -> -> _] & Hx & _).
        rewrite list_lookup_fmap in Hx.
        destruct (seq 0 _ !! i) as [k|] eqn:E; [|discriminate].
        apply lookup_seq in E as [-> Hk]. injection Hx as <-. exists i.
        split; [lia | auto].
      + apply elem_of_cons in Hin as [[= -> -> _]|Hin]; [eauto|].
        apply elem_of_cons in Hin as [[=]|Hin]. by apply elem_of_nil in Hin. }
  destruct Hreq as (k & Hk & -> & ->). unfold request. cbn [model input].
  rewrite slice_length. split; [reflexivity|]. split; [reflexivity|]. split; [lia|].
  exists k. split; [lia|]. unfold slice. f_equal. lia.
Qed.

(** A run that returns has made one answered call per batch and logged
    nothing, and its result is made of exactly the vectors received: the
    concatenation over the calls of each response's vectors in ascending
    order of index, hence a rearrangement of all received vectors, as many
    as the provider sent. Nothing compares that number with the length of
    the input. *)
Theorem embed_returns_what_it_received (texts : list string) (w : World) (vs : list Vector) :
  outcome (embed headroom remote env texts w) = Return vs ->
  let datas := answered (invocations (embed headroom remote env texts w)) in
  length (invocations (embed headroom remote env texts w)) = batch_count (length texts) /\
  length datas = batch_count (length texts) /\
  vs = concat ((fun data => embedding <$> sort by_index data) <$> datas) /\
  vs ≡ₚ concat ((fun data : list Embedding => embedding <$> data) <$> datas) /\
  length vs = sum_list (length <$> datas) /\
  console (embed headroom remote env texts w) = [].
Proof.
  intros Hret. cbv zeta.
  destruct (Config.client env) as [c|] eqn:Hc.
  2:{ unfold embed in Hret. rewrite Hc in Hret. discriminate. }
  destruct (embed_cases headroom remote env c texts w Hc)
    as [(datas & Hlen & _ & Htr & Hout)
       | (j & datas & reply & e & Hj & Hlen & _ & Htr & Hout)];
    [|congruence].
  rewrite Hout in Hret. injection Hret as <-.
  unfold invocations, console. rewrite Htr, invocations_answered, console_answered.
  assert (Hreqs : length (request (Config.EMBEDDING_MODEL env) texts <$>
                            seq 0 (batch_count (length texts))) = length datas)
    by (rewrite length_fmap, length_seq; lia).
  rewrite answered_zip by exact Hreqs.
  rewrite length_answered by exact Hreqs.
  repeat split; auto.
  - apply concat_block_Permutation.
  - apply length_concat_block.
Qed.
End EveryRun.

Lemma embed_requests_within_limit_witness :
  let c := mkOpenAI "sk-1" "https://api.openai.com/v1" None in
  let req := mkParams "openai/text-embedding-3-small" (replicate 100 "ok") in
  let reply := inr (Some (Demo.answer (replicate 100 "ok"))) in
  Create c req reply ∈ trace (embed Demo.headroom Demo.remote Demo.env_openai (Demo.texts_101 "last") tt) /\
  Config.client Demo.env_openai = Some c /\
  model req = Config.getModelName Demo.env_openai /\
  1 <= length (input req) <= 100.
Proof.
  cbv zeta.
  assert (Hin : Create (mkOpenAI "sk-1" "https://api.openai.com/v1" None)
                  (mkParams "openai/text-embedding-3-small" (replicate 100 "ok"))
                  (inr (Some (Demo.answer (replicate 100 "ok"))))
                ∈ trace (embed Demo.headroom Demo.remote Demo.env_openai (Demo.texts_101 "last") tt)).
  { apply elem_of_cons. left. vm_compute. reflexivity. }
  destruct (embed_requests_within_limit Demo.headroom Demo.remote Demo.env_openai
              (Demo.texts_101 "last") tt _ _ _ Hin) as (Hc & Hm & Hlen & _).
  split; [exact Hin|]. split; [exact Hc|]. split; [exact Hm | exact Hlen].
Defined.

(** With a provider that answers every request with no vector at all,
    [embed] on two texts returns the empty sequence. *)
Lemma embed_returns_what_it_received_witness :
  outcome (embed Demo.headroom Demo.remote_silent Demo.env_openai ["a"; "b"] tt) = Return [] /\
  length (invocations (embed Demo.headroom Demo.remote_silent Demo.env_openai ["a"; "b"] tt)) = 1.
Proof.
  assert (Hret : outcome (embed Demo.headroom Demo.remote_silent Demo.env_openai ["a"; "b"] tt) = Return [])
    by reflexivity.
  split; [exact Hret|].
  exact (proj1 (embed_returns_what_it_received Demo.headroom Demo.remote_silent Demo.env_openai
                  ["a"; "b"] tt [] Hret)).
Defined.

(** ** The embedding client: one batch, [embedSingle], the log *)

Lemma batch_count_one (n : nat) : 0 < n <= 100 -> batch_count n = 1.
Proof.
  intros Hn. rewrite batch_count_step by lia.
  replace (n - 100) with 0 by lia. reflexivity.
Qed.

Lemma sort_by_index_head (data : list Embedding) :
  (head (sort by_index data) = None <-> data = []) /\
  (forall item, head (sort by_index data) = Some item ->
     item ∈ data /\ forall x, x ∈ data -> (index item <= index x)%Z).
Proof.
  pose proof (sort_Permutation by_index data) as Hperm.
  pose proof (sort_by_index_Sorted data) as Hsorted.
  destruct (sort by_index data) as [|first rest] eqn:E; simpl.
  - apply Permutation_nil_l in Hperm as <-. split; [tauto | discriminate].
  - split.
    + split; [discriminate|]. intros ->. by apply Permutation_nil_r in Hperm.
    + intros item [= <-]. split.
      * rewrite <- Hperm. apply elem_of_cons. by left.
      * intros x Hx. rewrite <- Hperm in Hx.
        assert (Htrans : Transitive index_le) by (intros a b d; unfold index_le; lia).
        apply Sorted_StronglySorted in Hsorted; [|exact Htrans].
        apply StronglySorted_inv in Hsorted as [_ Hall].
        apply elem_of_cons in Hx as [->|Hx]; [lia|].
        by apply (proj1 (Forall_forall _ _) Hall).
Qed.

Section OneBatch.
Context {World Cause : Type}.
Variable headroom : nat.
Variable remote :
  OpenAI -> EmbeddingCreateParams -> World -> World * (Cause + option (list Embedding)).
Variable env : gmap string string.

Lemma embed_one_batch_run (c : OpenAI) (texts : list string) (w : World) :
  Config.client env = Some c ->
  0 < length texts <= 100 ->
  embed headroom remote env texts w =
    let p := mkParams (Config.getModelName env) texts in
    let '(w', reply) := remote c p w in
    match thrown_by (BATCH_SIZE + headroom) reply with
    | None => mkRun w' [Create c p reply] (Return (block (data_of reply)))
    | Some e =>
        mkRun w' [Create c p reply;
                  ConsoleError "Error generating embeddings for batch 0:" e]
          (Throw e)
    end.
Proof.
  intros Hc Hlen. rewrite (embed_iterations headroom remote env c texts Hc).
  rewrite batch_count_one by exact Hlen.
  pose proof (iterations_step headroom remote c (Config.EMBEDDING_MODEL env) texts 0 0 [] w) as Hstep.
  change (0 * 100) with 0 in Hstep at 1. rewrite Hstep. clear Hstep. cbv zeta.
  assert (Hreq : request (Config.EMBEDDING_MODEL env) texts 0 =
                 mkParams (Config.getModelName env) texts).
  { unfold request, slice, Config.getModelName. f_equal.
    rewrite drop_0. apply take_ge. lia. }
  rewrite Hreq.
  destruct (remote c (mkParams (Config.getModelName env) texts) w) as [w' reply].
  destruct (thrown_by (BATCH_SIZE + headroom) reply); reflexivity.
Qed.

(** With a client, [embed] on 1 to 100 texts makes exactly one request,
    carrying the model name and all the texts in order, and its whole run
    is decided by the reply. A rejected request, a response without a
    [data] array, and a response with more pairs than a call takes
    arguments all end in the [catch] clause: the line "Error generating
    embeddings for batch 0:" is logged with the value thrown (the provider's
    value, a [TypeError], a [RangeError]) and that value is thrown again.
    Any other response makes [embed] return its vectors in ascending order
    of index, however many they are. *)
Theorem embed_single_batch (c : OpenAI) (texts : list string) (w : World) :
  Config.client env = Some c ->
  0 < length texts <= 100 ->
  embed headroom remote env texts w =
    let p := mkParams (Config.getModelName env) texts in
    let '(w', reply) := remote c p w in
    let caught e :=
      mkRun w' [Create c p reply;
                ConsoleError "Error generating embeddings for batch 0:" e]
        (Throw e) in
    match reply with
    | inl cause => caught (Foreign cause)
    | inr None => caught (Engine TypeError)
    | inr (Some data) =>
        if (length data <=? 100 + headroom)%nat
        then mkRun w' [Create c p reply] (Return (embedding <$> sort by_index data))
        else caught (Engine RangeError)
    end.
Proof.
  intros Hc Hlen. rewrite (embed_one_batch_run c texts w Hc Hlen). cbv zeta.
  destruct (remote c (mkParams (Config.getModelName env) texts) w) as [w' [cause|[data|]]];
    try reflexivity.
  cbn [thrown_by]. change (BATCH_SIZE + headroom) with (100 + headroom).
  destruct (length data <=? 100 + headroom)%nat; reflexivity.
Qed.

(** [embedSingle] without a client throws the configuration error with no
    effect. With a client it makes the one request for [[text]]. When the
    request is rejected, or the response has no [data] array, or it has
    more pairs than a call takes arguments, [embedSingle] logs one line and
    throws what [embed] throws. Otherwise it returns the vector of the
    first pair of the sorted response: a pair of the response with the
    least index, and [undefined] (no error) when the response holds no pair
    at all. *)
Theorem embedSingle_behaviour (text : string) (w : World) :
  (Config.client env = None ->
     embedSingle headroom remote env text w =
       mkRun w [] (Throw (Own (mkError "OPENROUTER_API_KEY not configured")))) /\
  (forall c, Config.client env = Some c ->
     embedSingle headroom remote env text w =
       let p := mkParams (Config.getModelName env) [text] in
       let '(w', reply) := remote c p w in
       let caught e :=
         mkRun w' [Create c p reply;
                   ConsoleError "Error generating embeddings for batch 0:" e]
           (Throw e) in
       match reply with
       | inl cause => caught (Foreign cause)
       | inr None => caught (Engine TypeError)
       | inr (Some data) =>
           if (length data <=? 100 + headroom)%nat
           then mkRun w' [Create c p reply]
                  (Return (embedding <$> head (sort by_index data)))
           else caught (Engine RangeError)
       end) /\
  (forall data : list Embedding,
     (embedding <$> head (sort by_index data) = None <-> data = []) /\
     (forall item, head (sort by_index data) = Some item ->
        item ∈ data /\ forall x, x ∈ data -> (index item <= index x)%Z)).
Proof.
  split; [|split].
  - intros Hc. unfold embedSingle, bind, embed. rewrite Hc. reflexivity.
  - intros c Hc. unfold embedSingle, bind.
    rewrite (embed_one_batch_run c [text] w Hc) by (simpl; lia). cbv zeta.
    destruct (remote c (mkParams (Config.getModelName env) [text]) w)
      as [w' [cause|[data|]]]; try reflexivity.
    cbn [thrown_by]. change (BATCH_SIZE + headroom) with (100 + headroom).
    destruct (length data <=? 100 + headroom)%nat; [|reflexivity].
    cbn [outcome world trace data_of]. unfold ret. cbn [outcome world trace].
    rewrite app_nil_r. f_equal. f_equal. unfold block. by destruct (sort by_index data).
  - intros data. destruct (sort_by_index_head data) as [Hnone Hsome].
    split; [|exact Hsome].
    rewrite <- Hnone. destruct (head (sort by_index data)); simpl; split; congruence.
Qed.

(** [embed] writes to the console exactly when something is thrown inside
    the [try] block of a batch. A run that returns, or that fails for lack
    of a client, logs nothing. A run with a client that throws [e] has
    logged exactly one line, paired with [e]: the line names [k * 100],
    where [k] numbers the last invocation of the run, whose request carries
    the texts from the offset [k * 100] on; and [e] is the provider's value
    when that invocation was rejected, a [TypeError] when its response has
    no [data] array, and a [RangeError] when it has more pairs than a call
    takes arguments. *)
Theorem embed_logs_iff_batch_failed (texts : list string) (w : World) :
  (forall vs, outcome (embed headroom remote env texts w) = Return vs ->
     console (embed headroom remote env texts w) = []) /\
  (Config.client env = None -> console (embed headroom remote env texts w) = []) /\
  (forall c e, Config.client env = Some c ->
     outcome (embed headroom remote env texts w) = Throw e ->
     exists k req reply,
       invocations (embed headroom remote env texts w) !! k = Some (req, reply) /\
       length (invocations (embed headroom remote env texts w)) = S k /\
       k * 100 < length texts /\
       input req = take 100 (drop (k * 100) texts) /\
       console (embed headroom remote env texts w) =
         [("Error generating embeddings for batch " +:+ pretty (k * 100) +:+ ":", e)] /\
       ((exists cause, reply = inl cause /\ e = Foreign cause) \/
        (reply = inr None /\ e = Engine TypeError) \/
        (exists data, reply = inr (Some data) /\ 100 + headroom < length data /\
                      e = Engine RangeError))).
Proof.
  split; [|split].
  - intros vs Hret.
    destruct (Config.client env) as [c|] eqn:Hc.
    2:{ unfold embed. rewrite Hc. reflexivity. }
    destruct (embed_cases headroom remote env c texts w Hc)
      as [(datas & Hlen & _ & Htr & Hout)
         | (j & datas & reply & e & Hj & Hlen & _ & Htr & Hout)];
      [|congruence].
    unfold console. rewrite Htr. apply console_answered.
  - intros Hc. unfold embed. rewrite Hc. reflexivity.
  - intros c e Hc Hthrow.
    pose proof (batch_count_bounds (length texts)) as Hnb.
    destruct (embed_cases headroom remote env c texts w Hc)
      as [(datas & Hlen & _ & Htr & Hout)
         | (j & datas & reply & e' & Hj & Hlen & Hth & Htr & Hout)];
      [congruence|].
    rewrite Hout in Hthrow. injection Hthrow as ->.
    assert (Hzip : length (zip (request (Config.EMBEDDING_MODEL env) texts <$> seq 0 j)
                             ((@answer_with Cause) <$> datas)) = j).
    { rewrite length_zip_with, !length_fmap, length_seq. lia. }
    exists j, (request (Config.EMBEDDING_MODEL env) texts j), reply.
    unfold invocations, console. rewrite Htr, !omap_app, invocations_answered,
      console_answered, length_app, Hzip.
    split; [|split; [|split; [|split; [|split]]]].
    + rewrite lookup_app_r by lia. rewrite Hzip, Nat.sub_diag. reflexivity.
    + simpl. lia.
    + lia.
    + unfold request, slice. cbn [input]. f_equal. lia.
    + reflexivity.
    + apply (proj1 (thrown_by_Some (BATCH_SIZE + headroom) reply e)). exact Hth.
Qed.
End OneBatch.

Lemma embed_single_batch_witness :
  embed Demo.headroom Demo.remote Demo.env_openai ["a"; "b"] tt =
    mkRun tt
      [Create (mkOpenAI "sk-1" "https://api.openai.com/v1" None)
         (mkParams "openai/text-embedding-3-small" ["a"; "b"])
         (inr (Some [mkEmbedding 1 [1%float]; mkEmbedding 0 [0%float]]))]
      (Return [[0%float]; [1%float]]) /\
  outcome (embed Demo.headroom Demo.remote_no_data Demo.env_openai ["a"; "b"] tt) =
    Throw (Engine TypeError) /\
  outcome (embed Demo.headroom Demo.remote_flood Demo.env_openai ["a"; "b"] tt) =
    Throw (Engine RangeError).
Proof.
  assert (Hlen : 0 < length ["a"; "b"] <= 100) by (simpl; lia).
  split; [|split].
  - exact (embed_single_batch Demo.headroom Demo.remote Demo.env_openai
             (mkOpenAI "sk-1" "https://api.openai.com/v1" None) ["a"; "b"] tt eq_refl Hlen).
  - rewrite (embed_single_batch Demo.headroom Demo.remote_no_data Demo.env_openai
               (mkOpenAI "sk-1" "https://api.openai.com/v1" None) ["a"; "b"] tt eq_refl Hlen).
    reflexivity.
  - rewrite (embed_single_batch Demo.headroom Demo.remote_flood Demo.env_openai
               (mkOpenAI "sk-1" "https://api.openai.com/v1" None) ["a"; "b"] tt eq_refl Hlen).
    reflexivity.
Defined.

Lemma embedSingle_behaviour_witness :
  outcome (embedSingle Demo.headroom Demo.remote_silent Demo.env_openai "hello" tt) = Return None /\
  outcome (embedSingle Demo.headroom Demo.remote Demo.env_openai "hello" tt) = Return (Some [0%float]) /\
  outcome (embedSingle Demo.headroom Demo.remote_no_data Demo.env_openai "hello" tt) =
    Throw (Engine TypeError) /\
  outcome (embedSingle Demo.headroom Demo.remote_flood Demo.env_openai "hello" tt) =
    Throw (Engine RangeError) /\
  outcome (embedSingle Demo.headroom Demo.remote Demo.env_none "hello" tt) =
    Throw (Own (mkError "OPENROUTER_API_KEY not configured")).
Proof.
  split; [|split; [|split; [|split]]].
  - rewrite (proj1 (proj2 (embedSingle_behaviour Demo.headroom Demo.remote_silent Demo.env_openai "hello" tt))
               (mkOpenAI "sk-1" "https://api.openai.com/v1" None) eq_refl).
    reflexivity.
  - rewrite (proj1 (proj2 (embedSingle_behaviour Demo.headroom Demo.remote Demo.env_openai "hello" tt))
               (mkOpenAI "sk-1" "https://api.openai.com/v1" None) eq_refl).
    reflexivity.
  - rewrite (proj1 (proj2 (embedSingle_behaviour Demo.headroom Demo.remote_no_data Demo.env_openai "hello" tt))
               (mkOpenAI "sk-1" "https://api.openai.com/v1" None) eq_refl).
    reflexivity.
  - rewrite (proj1 (proj2 (embedSingle_behaviour Demo.headroom Demo.remote_flood Demo.env_openai "hello" tt))
               (mkOpenAI "sk-1" "https://api.openai.com/v1" None) eq_refl).
    reflexivity.
  - rewrite (proj1 (embedSingle_behaviour Demo.headroom Demo.remote Demo.env_none "hello" tt) eq_refl).
    reflexivity.
Defined.

Lemma embed_logs_iff_batch_failed_witness :
  console (embed Demo.headroom Demo.remote_flood Demo.env_openai (Demo.texts_101 "last") tt) =
    [("Error generating embeddings for batch 0:", Engine RangeError)] /\
  length (invocations (embed Demo.headroom Demo.remote_flood Demo.env_openai
                         (Demo.texts_101 "last") tt)) = 1.
Proof.
  assert (Hthrow : outcome (embed Demo.headroom Demo.remote_flood Demo.env_openai
                              (Demo.texts_101 "last") tt) = Throw (Engine RangeError))
    by (vm_compute; reflexivity).
  destruct (proj2 (proj2 (embed_logs_iff_batch_failed Demo.headroom Demo.remote_flood
                            Demo.env_openai (Demo.texts_101 "last") tt))
              (mkOpenAI "sk-1" "https://api.openai.com/v1" None) (Engine RangeError)
              eq_refl Hthrow)
    as (k & req & reply & Hk & Hlen & _ & _ & Hlog & _).
  assert (k = 0) as ->.
  { assert (Hone : length (invocations (embed Demo.headroom Demo.remote_flood Demo.env_openai
                                          (Demo.texts_101 "last") tt)) = 1)
      by (vm_compute; reflexivity).
    lia. }
  split; [exact Hlog | exact Hlen].
Defined.

(** ** The embedding client: splitting the input at a multiple of 100 *)

Lemma batch_count_full (k n : nat) : batch_count (k * 100 + n) = k + batch_count n.
Proof.
  unfold batch_count. rewrite <- Nat.add_assoc, Nat.add_comm.
  rewrite Nat.div_add by lia. lia.
Qed.

Lemma batch_count_multiple (k : nat) : batch_count (k * 100) = k.
Proof.
  unfold batch_count. rewrite Nat.div_add_l by lia.
  rewrite (Nat.div_small 99 100) by lia. lia.
Qed.

Section Splitting.
Context {World Cause : Type}.
Variable headroom : nat.
Variable remote :
  OpenAI -> EmbeddingCreateParams -> World -> World * (Cause + option (list Embedding)).
Variables (c : OpenAI) (m : string).

(** [n1 + n2] iterations are [n1] iterations followed, when they return, by
    [n2] more. *)
Lemma iterations_add (texts : list string) (n1 n2 k0 : nat) (results : list Vector) (w : World) :
  iterations headroom remote c m texts (n1 + n2) (k0 * 100) results w =
    let r1 := iterations headroom remote c m texts n1 (k0 * 100) results w in
    match outcome r1 with
    | Return results1 =>
        let r2 := iterations headroom remote c m texts n2 ((k0 + n1) * 100) results1 (world r1) in
        mkRun (world r2) (trace r1 ++ trace r2) (outcome r2)
    | Throw e => mkRun (world r1) (trace r1) (Throw e)
    end.
Proof.
  cbv zeta. revert k0 results w. induction n1 as [|n1 IH]; intros k0 results w.
  - cbn [Nat.add iterations ret outcome world trace]. rewrite Nat.add_0_r.
    by destruct (iterations headroom remote c m texts n2 (k0 * 100) results w).
  - change (S n1 + n2) with (S (n1 + n2)). rewrite !iterations_step.
    destruct (remote c (request m texts k0) w) as [w' reply].
    destruct (thrown_by (BATCH_SIZE + headroom) reply); [reflexivity|].
    cbv zeta. cbn [outcome world trace]. rewrite IH.
    replace (S k0 + n1) with (k0 + S n1) by lia.
    destruct (outcome (iterations headroom remote c m texts n1 (S k0 * 100)
                         (results ++ block (data_of reply)) w'));
      reflexivity.
Qed.

(** A run depends on the texts only through the requests it makes, and on
    the results so far only by appending to them: two runs of [n]
    iterations whose requests agree make the same calls, leave the same
    world and end alike. *)
Lemma iterations_same_requests (n : nat) :
  forall (texts texts' : list string) (k0 k0' : nat) (results results' : list Vector) (w : World),
  (forall j, j < n -> request m texts (k0 + j) = request m texts' (k0' + j)) ->
  let r := iterations headroom remote c m texts n (k0 * 100) results w in
  let r' := iterations headroom remote c m texts' n (k0' * 100) results' w in
  world r' = world r /\
  invocations r' = invocations r /\
  (k0 = k0' -> console r' = console r) /\
  (forall e, outcome r = Throw e -> outcome r' = Throw e) /\
  (forall vs, outcome r = Return vs ->
     exists more, vs = results ++ more /\ outcome r' = Return (results' ++ more)).
Proof.
  induction n as [|n IH]; intros texts texts' k0 k0' results results' w Hreq; cbv zeta.
  - cbn [iterations ret outcome world trace]. repeat split; try discriminate.
    intros vs [= <-]. exists []. by rewrite !app_nil_r.
  - rewrite !iterations_step.
    pose proof (Hreq 0 ltac:(lia)) as H0. rewrite !Nat.add_0_r in H0. rewrite <- H0.
    destruct (remote c (request m texts k0) w) as [w' reply].
    destruct (thrown_by (BATCH_SIZE + headroom) reply) as [e0|].
    + cbn [outcome world trace]. repeat split; try discriminate; auto.
      intros ->. reflexivity.
    + cbv zeta. cbn [outcome world trace].
      destruct (IH texts texts' (S k0) (S k0') (results ++ block (data_of reply))
                  (results' ++ block (data_of reply)) w')
        as (Hw & Hinv & Hcon & Hthrow & Hret).
      { intros j Hj. replace (S k0 + j) with (k0 + S j) by lia.
        replace (S k0' + j) with (k0' + S j) by lia. apply Hreq. lia. }
      unfold invocations, console in *. cbn [trace omap invocation_of logged_by option_ret
        option_bind list_omap] in *.
      split; [exact Hw|]. split; [by rewrite Hinv|]. split; [|split; [exact Hthrow|]].
      * intros ->. by apply Hcon.
      * intros vs Hvs. destruct (Hret vs Hvs) as (more & -> & Hout).
        exists (block (data_of reply) ++ more). by rewrite !app_assoc.
Qed.
End Splitting.

Lemma request_app_l (m : string) (t1 t2 : list string) (k j : nat) :
  length t1 = k * 100 -> j < k ->
  request m (t1 ++ t2) j = request m t1 j.
Proof.
  intros Hlen Hj. unfold request, slice. f_equal.
  replace (j * 100 + 100 - j * 100) with 100 by lia.
  rewrite drop_app_le by nia. apply take_app_le. rewrite length_drop. nia.
Qed.

Lemma request_app_r (m : string) (t1 t2 : list string) (k j : nat) :
  length t1 = k * 100 ->
  request m (t1 ++ t2) (k + j) = request m t2 j.
Proof.
  intros Hlen. unfold request, slice. f_equal.
  replace ((k + j) * 100 + 100 - (k + j) * 100) with 100 by lia.
  replace (j * 100 + 100 - j * 100) with 100 by lia.
  rewrite drop_app_ge by nia. do 2 f_equal. nia.
Qed.

Section Composition.
Context {World Cause : Type}.
Variable headroom : nat.
Variable remote :
  OpenAI -> EmbeddingCreateParams -> World -> World * (Cause + option (list Embedding)).
Variable env : gmap string string.

(** Splitting the input at a multiple of 100. With a client, when the
    length of [t1] is a multiple of 100, [embed (t1 ++ t2)] behaves as
    [embed t1] followed by [embed t2] in the world [embed t1] leaves: if
    [embed t1] throws, so does [embed (t1 ++ t2)], with the same calls, log
    and world; if it returns [v1], the calls are those of the two runs one
    after the other, the world is the one the second run leaves, and the
    outcome is [v1 ++ v2] when the second run returns [v2], and the second
    run's thrown value otherwise. *)
Theorem embed_app (c : OpenAI) (t1 t2 : list string) (k : nat) (w : World) :
  Config.client env = Some c ->
  length t1 = k * 100 ->
  let r1 := embed headroom remote env t1 w in
  let r := embed headroom remote env (t1 ++ t2) w in
  match outcome r1 with
  | Throw e =>
      outcome r = Throw e /\ world r = world r1 /\
      invocations r = invocations r1 /\ console r = console r1
  | Return v1 =>
      let r2 := embed headroom remote env t2 (world r1) in
      world r = world r2 /\
      invocations r = invocations r1 ++ invocations r2 /\
      outcome r = match outcome r2 with
                  | Return v2 => Return (v1 ++ v2)
                  | Throw e => Throw e
                  end
  end.
Proof.
  intros Hc Hlen. cbv zeta.
  rewrite !(embed_iterations headroom remote env c _ Hc).
  rewrite length_app, Hlen, batch_count_full.
  rewrite batch_count_multiple.
  set (m := Config.EMBEDDING_MODEL env).
  pose proof (iterations_add headroom remote c m (t1 ++ t2) k (batch_count (length t2)) 0 [] w) as Hadd.
  cbv zeta in Hadd. change (0 * 100) with 0 in Hadd. change (0 + k) with k in Hadd.
  rewrite Hadd. clear Hadd.
  destruct (iterations_same_requests headroom remote c m k t1 (t1 ++ t2) 0 0 [] [] w)
    as (Hw & Hinv & Hcon & Hthrow & Hret).
  { intros j Hj. symmetry. by apply (request_app_l m t1 t2 k j). }
  change (0 * 100) with 0 in *.
  destruct (outcome (iterations headroom remote c m t1 k 0 [] w)) as [v1|e] eqn:Hout1.
  - destruct (Hret v1 eq_refl) as (more & -> & Hout). simpl in Hout. rewrite Hout.
    cbn [outcome world trace app]. rewrite <- Hw.
    destruct (iterations_same_requests headroom remote c m (batch_count (length t2)) t2 (t1 ++ t2)
                0 k [] more (world (iterations headroom remote c m (t1 ++ t2) k 0 [] w)))
      as (Hw2 & Hinv2 & _ & Hthrow2 & Hret2).
    { intros j Hj. symmetry. by apply (request_app_r m t1 t2 k j). }
    change (0 * 100) with 0 in *.
    split; [exact Hw2|]. split.
    + unfold invocations in *. cbn [trace]. by rewrite omap_app, Hinv, Hinv2.
    + destruct (outcome (iterations headroom remote c m t2 (batch_count (length t2)) 0 []
                           (world (iterations headroom remote c m (t1 ++ t2) k 0 [] w))))
        as [v2|e] eqn:Hout2.
      * destruct (Hret2 v2 eq_refl) as (more2 & -> & Hout'). exact Hout'.
      * exact (Hthrow2 e eq_refl).
  - rewrite (Hthrow e eq_refl). cbn [outcome world trace]. unfold invocations, console in *.
    cbn [trace]. repeat split; auto.
Qed.
End Composition.

Lemma embed_app_witness :
  exists v1 v2,
    outcome (embed Demo.headroom Demo.remote Demo.env_openai (replicate 100 "ok") tt) = Return v1 /\
    outcome (embed Demo.headroom Demo.remote Demo.env_openai ["x"; "y"] tt) = Return v2 /\
    outcome (embed Demo.headroom Demo.remote Demo.env_openai (replicate 100 "ok" ++ ["x"; "y"]) tt) =
      Return (v1 ++ v2).
Proof.
  assert (Hlen : length (replicate 100 "ok") = 1 * 100) by reflexivity.
  pose proof (embed_app Demo.headroom Demo.remote Demo.env_openai
                (mkOpenAI "sk-1" "https://api.openai.com/v1" None)
                (replicate 100 "ok") ["x"; "y"] 1 tt eq_refl Hlen) as H.
  cbv zeta in H.
  destruct (outcome (embed Demo.headroom Demo.remote Demo.env_openai (replicate 100 "ok") tt))
    as [v1|e] eqn:E1; [|vm_compute in E1; discriminate].
  destruct H as (_ & _ & Hout).
  replace (world (embed Demo.headroom Demo.remote Demo.env_openai (replicate 100 "ok") tt)) with tt in Hout
    by (by destruct (world _)).
  destruct (outcome (embed Demo.headroom Demo.remote Demo.env_openai ["x"; "y"] tt))
    as [v2|e] eqn:E2; [|vm_compute in E2; discriminate].
  exists v1, v2. auto.
Defined.

(** ** The similarity utility: NaN and zero vectors *)

Section FloatFacts.
Implicit Types x y : float.

Lemma float_nan_iff x : x = nan <-> Prim2SF x = S754_nan.
Proof.
  split; [intros ->; reflexivity|].
  intros H. apply Prim2SF_inj. rewrite H. reflexivity.
Qed.

Lemma float_add_nan x y : x = nan \/ y = nan -> (x + y)%float = nan.
Proof.
  intros H. apply float_nan_iff. rewrite add_spec. unfold SF64add, SFadd.
  destruct H as [->| ->].
  - reflexivity.
  - change (Prim2SF nan) with S754_nan. by destruct (Prim2SF x).
Qed.

Lemma float_mul_nan x y : x = nan \/ y = nan -> (x * y)%float = nan.
Proof.
  intros H. apply float_nan_iff. rewrite mul_spec. unfold SF64mul, SFmul.
  destruct H as [->| ->].
  - reflexivity.
  - change (Prim2SF nan) with S754_nan. by destruct (Prim2SF x).
Qed.

Lemma float_div_nan x : (x / nan)%float = nan.
Proof.
  apply float_nan_iff. rewrite div_spec. unfold SF64div, SFdiv.
  change (Prim2SF nan) with S754_nan. by destruct (Prim2SF x).
Qed.

(** The two zeros are the only floats that compare equal to [0]. *)
Lemma float_eqb_zero x : (x =? 0)%float = true <-> x = 0%float \/ x = (-0)%float.
Proof.
  split; [|intros [->| ->]; reflexivity].
  rewrite FloatAxioms.eqb_spec. change (Prim2SF 0) with (S754_zero false).
  destruct (Prim2SF x) as [[|]| [|] | |[|] mx ex] eqn:E; try discriminate; intros _.
  - right. apply Prim2SF_inj. rewrite E. reflexivity.
  - left. apply Prim2SF_inj. rewrite E. reflexivity.
Qed.

Lemma SFcompare_refl_finite (s : bool) (mx : positive) (ex : Z) :
  SFcompare (S754_finite s mx ex) (S754_finite s mx ex) = Some Eq.
Proof.
  unfold SFcompare. destruct s; rewrite Z.compare_refl, Pos.compare_cont_refl; reflexivity.
Qed.

(** [is_finite] holds of the zeros and of the finite non-zero floats. *)
Lemma float_is_finite_spec x :
  is_finite x =
    match Prim2SF x with
    | S754_zero _ | S754_finite _ _ _ => true
    | S754_infinity _ | S754_nan => false
    end.
Proof.
  destruct (Prim2SF x) as [[|]| [|] | |s mx ex] eqn:E.
  - replace x with (-0)%float by (apply Prim2SF_inj; rewrite E; reflexivity). reflexivity.
  - replace x with 0%float by (apply Prim2SF_inj; rewrite E; reflexivity). reflexivity.
  - replace x with neg_infinity by (apply Prim2SF_inj; rewrite E; reflexivity). reflexivity.
  - replace x with infinity by (apply Prim2SF_inj; rewrite E; reflexivity). reflexivity.
  - replace x with nan by (apply Prim2SF_inj; rewrite E; reflexivity). reflexivity.
  - unfold is_finite, is_nan, is_infinity.
    rewrite !FloatAxioms.eqb_spec, abs_spec, E. unfold SFeqb.
    rewrite SFcompare_refl_finite. reflexivity.
Qed.

(** [0 * y] is a zero when [y] is finite and NaN otherwise. *)
Lemma float_zero_mul y :
  ((0 * y =? 0)%float = is_finite y) /\
  (is_finite y = false -> (0 * y)%float = nan).
Proof.
  rewrite float_is_finite_spec, FloatAxioms.eqb_spec, float_nan_iff, mul_spec.
  unfold SF64mul, SFmul. change (Prim2SF 0) with (S754_zero false).
  destruct (Prim2SF y) as [[|]| [|] | |s mx ex]; split; try reflexivity; discriminate.
Qed.
End FloatFacts.

Lemma sum_of_squares_nan (a : Vector) : nan ∈ a -> sum_of_squares a = nan.
Proof.
  unfold sum_of_squares. generalize 0%float as acc.
  assert (Hgen : forall l acc, acc = nan \/ nan ∈ l ->
            foldl (fun acc x => acc + x * x)%float acc l = nan).
  { induction l as [|x l IH]; intros acc [Hacc|Hin]; simpl.
    - exact Hacc.
    - by apply elem_of_nil in Hin.
    - apply IH. left. apply float_add_nan. by left.
    - apply elem_of_cons in Hin as [<-|Hin].
      + apply IH. left. apply float_add_nan. right. apply float_mul_nan. by left.
      + apply IH. by right. }
  intros acc Hin. apply Hgen. by right.
Qed.

Lemma sum_of_squares_zeros (a : Vector) :
  Forall (fun x => (x =? 0)%float = true) a -> sum_of_squares a = 0%float.
Proof.
  unfold sum_of_squares.
  induction 1 as [|x l Hx _ IH]; simpl; [reflexivity|].
  apply float_eqb_zero in Hx as [->| ->]; exact IH.
Qed.

(** NaN in, NaN out: for vectors of equal length, if either holds a NaN
    entry the result is NaN; no error is raised and the zero-denominator
    branch is not taken. *)
Theorem cosineSimilarity_nan (a b : Vector) :
  length a = length b ->
  nan ∈ a \/ nan ∈ b ->
  cosineSimilarity a b = Return nan.
Proof.
  intros Hab Hnan. rewrite (cosineSimilarity_equal_lengths a b Hab).
  unfold cosine_reference. f_equal.
  assert (Hden : (sqrt (sum_of_squares a) * sqrt (sum_of_squares b))%float = nan).
  { apply float_mul_nan. destruct Hnan as [Ha|Hb].
    - left. by rewrite (sum_of_squares_nan a Ha).
    - right. by rewrite (sum_of_squares_nan b Hb). }
  rewrite Hden. change (nan =? 0)%float with false. cbv iota. apply float_div_nan.
Qed.

Lemma cosineSimilarity_nan_witness :
  cosineSimilarity [1; nan]%float [2; 3]%float = Return nan.
Proof.
  apply cosineSimilarity_nan; [reflexivity|].
  left. apply elem_of_cons. right. apply elem_of_cons. by left.
Defined.

(** A vector of zeros (each entry [0] or [-0]) against a vector of the same
    length gives 0 exactly when the norm of the other vector, the square
    root of its sum of squares, is finite; when that sum overflows to
    infinity or is NaN the denominator is [0 * infinity] or NaN, the test
    [denominator === 0] fails and the result is NaN. This holds with the
    zeros on either side. *)
Theorem cosineSimilarity_zero_vector (a b : Vector) :
  length a = length b ->
  (Forall (fun x => (x =? 0)%float = true) a ->
     cosineSimilarity a b =
       Return (if is_finite (sqrt (sum_of_squares b)) then 0%float else nan)) /\
  (Forall (fun x => (x =? 0)%float = true) b ->
     cosineSimilarity a b =
       Return (if is_finite (sqrt (sum_of_squares a)) then 0%float else nan)).
Proof.
  intros Hab. rewrite (cosineSimilarity_equal_lengths a b Hab). unfold cosine_reference.
  assert (Hzero : forall s d : float,
            (if (0 * s =? 0)%float then 0%float else (d / (0 * s))%float) =
            (if is_finite s then 0%float else nan)).
  { intros s d. destruct (float_zero_mul s) as [Heq Hnan]. rewrite Heq.
    destruct (is_finite s); [reflexivity|]. rewrite (Hnan eq_refl). apply float_div_nan. }
  split; intros Hall; f_equal; rewrite (sum_of_squares_zeros _ Hall);
    change (sqrt 0)%float with 0%float.
  - apply Hzero.
  - rewrite (float_mul_comm (sqrt (sum_of_squares a)) 0). apply Hzero.
Qed.

Lemma cosineSimilarity_zero_vector_witness :
  cosineSimilarity [0; -0]%float [1; 2]%float = Return 0%float /\
  cosineSimilarity [0x1p+600]%float [0]%float = Return nan.
Proof.
  split.
  - refine (proj1 (cosineSimilarity_zero_vector [0; -0]%float [1; 2]%float eq_refl) _).
    repeat constructor.
  - refine (proj2 (cosineSimilarity_zero_vector [0x1p+600]%float [0]%float eq_refl) _).
    repeat constructor.
Defined.
